(** * SmartBuildingEnergyFHE: the submission / reveal / aggregation ledger

    A shallow embedding of [contracts/SmartBuildingEnergyFHE.sol] and the
    properties of its decryption-request state machine.

    Conventions.
    - [uint256], [uint32] and the [euint32] ciphertext handles (a [bytes32]
      underneath) are integers in [Z]; the only arithmetic of the contract,
      [dataCount += 1], is checked and reverts on overflow.
    - A Solidity [mapping] is a finite map read with a zero default; writing
      the zero value clears the slot, as in EVM storage.
    - Every public function is a transaction in a state-and-revert monad that
      also collects the emitted events; a revert discards every write.
    - The FHE library, the decryption oracle, [keccak256] and [abi.decode]
      are external: they are the fields of [FHEVM] and the [Oracle] a request
      is run against, and each theorem holds for every such environment
      unless it says otherwise. Every call into the library may revert: the
      coprocessor may refuse a trivial encryption or an addition (the contract
      grants itself no lasting access to the handles it stores), the proof
      check may fail, the oracle may refuse a request. The storage is the six
      state variables of the contract; what the library keeps for itself is
      not part of it, but the event it logs from the contract is. *)

From Stdlib Require Import ZArith List Lia Bool Permutation.
From Stdlib Require Strings.Byte.
From stdpp Require Import gmap strings list fin_maps.

Open Scope Z_scope.

(** ** Solidity mappings *)

Module Mapping.

Class Zero (V : Type) := zero : V.

Section Ops.
Context {K : Type} `{Countable K} {V : Type} `{Zero V} `{EqDecision V}.

(** [m[k]] as an rvalue. *)
Definition mload (m : gmap K V) (k : K) : V := default zero (m !! k).

(** [m[k] = v]. *)
Definition mstore (k : K) (v : V) (m : gmap K V) : gmap K V :=
  if decide (v = zero) then delete k m else <[k := v]> m.
End Ops.

End Mapping.
Import Mapping.

(** ** Types of the contract *)

Definition uint256 := Z.
Definition uint32 := Z.
Definition bytes32 := Z.
Definition bytes := list Byte.byte.

#[global] Instance byte_eq_dec : EqDecision Byte.byte := Strings.Byte.byte_eq_dec.

(** [type euint32 is bytes32]: a ciphertext handle. *)
Definition euint32 := bytes32.

Definition MAX_UINT256 : Z := 2 ^ 256 - 1.
Definition MAX_UINT32 : Z := 2 ^ 32 - 1.

Record EncryptedEnergyData := {
  id : uint256;
  encryptedTenantUsage : euint32;
  encryptedTimestamp : euint32;
  encryptedSystemLoad : euint32;
  timestamp : uint256
}.

Record DecryptedEnergyData := {
  tenantUsage : uint32;
  systemLoad : uint32;
  isRevealed : bool
}.

#[global] Instance EncryptedEnergyData_eq_dec : EqDecision EncryptedEnergyData.
Proof. solve_decision. Defined.

#[global] Instance DecryptedEnergyData_eq_dec : EqDecision DecryptedEnergyData.
Proof. solve_decision. Defined.

#[global] Instance Z_zero : Zero Z := 0.

#[global] Instance EncryptedEnergyData_zero : Zero EncryptedEnergyData :=
  {| id := 0; encryptedTenantUsage := 0; encryptedTimestamp := 0;
     encryptedSystemLoad := 0; timestamp := 0 |}.

#[global] Instance DecryptedEnergyData_zero : Zero DecryptedEnergyData :=
  {| tenantUsage := 0; systemLoad := 0; isRevealed := false |}.

(** The state variables of the contract. *)
Record Storage := {
  dataCount : uint256;
  encryptedData : gmap Z EncryptedEnergyData;
  decryptedData : gmap Z DecryptedEnergyData;
  encryptedLoadSum : gmap string euint32;
  systemList : list string;
  requestToDataId : gmap Z uint256
}.

(** Storage right after deployment: every slot is zero. *)
Definition deployed : Storage :=
  {| dataCount := 0; encryptedData := ∅; decryptedData := ∅;
     encryptedLoadSum := ∅; systemList := []; requestToDataId := ∅ |}.

Definition set_dataCount (n : uint256) (s : Storage) : Storage :=
  {| dataCount := n; encryptedData := encryptedData s;
     decryptedData := decryptedData s; encryptedLoadSum := encryptedLoadSum s;
     systemList := systemList s; requestToDataId := requestToDataId s |}.

Definition set_encryptedData (k : uint256) (v : EncryptedEnergyData)
    (s : Storage) : Storage :=
  {| dataCount := dataCount s; encryptedData := mstore k v (encryptedData s);
     decryptedData := decryptedData s; encryptedLoadSum := encryptedLoadSum s;
     systemList := systemList s; requestToDataId := requestToDataId s |}.

Definition set_decryptedData (k : uint256) (v : DecryptedEnergyData)
    (s : Storage) : Storage :=
  {| dataCount := dataCount s; encryptedData := encryptedData s;
     decryptedData := mstore k v (decryptedData s);
     encryptedLoadSum := encryptedLoadSum s;
     systemList := systemList s; requestToDataId := requestToDataId s |}.

Definition set_encryptedLoadSum (k : string) (v : euint32)
    (s : Storage) : Storage :=
  {| dataCount := dataCount s; encryptedData := encryptedData s;
     decryptedData := decryptedData s;
     encryptedLoadSum := mstore k v (encryptedLoadSum s);
     systemList := systemList s; requestToDataId := requestToDataId s |}.

Definition push_systemList (k : string) (s : Storage) : Storage :=
  {| dataCount := dataCount s; encryptedData := encryptedData s;
     decryptedData := decryptedData s; encryptedLoadSum := encryptedLoadSum s;
     systemList := systemList s ++ [k]; requestToDataId := requestToDataId s |}.

Definition set_requestToDataId (k : uint256) (v : uint256)
    (s : Storage) : Storage :=
  {| dataCount := dataCount s; encryptedData := encryptedData s;
     decryptedData := decryptedData s; encryptedLoadSum := encryptedLoadSum s;
     systemList := systemList s;
     requestToDataId := mstore k v (requestToDataId s) |}.

Inductive Event :=
| EnergyDataSubmitted (id : uint256) (timestamp : uint256)
| DecryptionRequested (id : uint256)
| EnergyDataDecrypted (id : uint256)
| DecryptionFulfilled (requestID : uint256).  (* logged by [FHE.checkSignatures] *)

(** Why a transaction reverted. *)
Inductive Revert :=
| Require (reason : string)   (* [require(c, reason)] and [revert(reason)] *)
| Panic (code : Z)            (* 0x11 arithmetic overflow, 0x32 index out of bounds *)
| InvalidProof                (* [FHE.checkSignatures] reverted *)
| DecodeFailed                (* [abi.decode] reverted *)
| OracleRefused               (* [FHE.requestDecryption] reverted *)
| CoprocessorRefused.         (* [FHE.asEuint32] or [FHE.add] reverted *)

(** Call context: [msg.sender] and [block.timestamp]. *)
Record Ctx := { msg_sender : Z; block_timestamp : uint256 }.

(** ** The transaction monad *)

Definition Tx (A : Type) : Type :=
  Storage → Revert + (A * Storage * list Event).

Definition ret {A} (a : A) : Tx A := λ s, inr (a, s, []).

Definition bind {A B} (m : Tx A) (k : A → Tx B) : Tx B :=
  λ s, match m s with
       | inl e => inl e
       | inr (a, s1, l1) =>
           match k a s1 with
           | inl e => inl e
           | inr (b, s2, l2) => inr (b, s2, l1 ++ l2)
           end
       end.

Notation "'let!' x ':=' m 'in' k" := (bind m (λ x, k))
  (at level 10, x name, m at level 100, k at level 200).
Notation "m ';;' k" := (bind m (λ _, k))
  (at level 100, k at level 200, right associativity).

Definition revert {A} (e : Revert) : Tx A := λ _, inl e.
Definition require (c : bool) (reason : string) : Tx unit :=
  if c then ret tt else revert (Require reason).
Definition sload {A} (f : Storage → A) : Tx A := λ s, inr (f s, s, []).
Definition sstore (f : Storage → Storage) : Tx unit := λ s, inr (tt, f s, []).
Definition emit (e : Event) : Tx unit := λ s, inr (tt, s, [e]).
Definition external {A} (o : option A) (e : Revert) : Tx A :=
  match o with Some a => ret a | None => revert e end.

(** Checked [uint256] addition (Solidity 0.8). *)
Definition checked_add (a b : uint256) : Tx uint256 :=
  if a + b <=? MAX_UINT256 then ret (a + b) else revert (Panic 0x11).

(** [a[i]] on a memory array. *)
Definition index {A} (a : list A) (i : nat) : Tx A :=
  external (a !! i) (Panic 0x32).

(** ** External collaborators *)

(** The selectors handed to the oracle with a request. *)
Inductive Selector := decryptEnergyData_selector | decryptLoadSum_selector.

(** What the contract calls but does not define. A handle is produced by the
    FHE coprocessor ([FHE.asEuint32], [FHE.add]), which answers [None] where
    the call reverts, as it does for an operand the contract has no access
    to; [FHE.checkSignatures] reverts unless it answers [true]; [keccak256]
    is already composed with [abi.encodePacked] and [bytes32ToUint]; the
    decoders answer [None] where [abi.decode] reverts. *)
Record FHEVM := {
  FHE_asEuint32 : uint32 → option euint32;
  FHE_add : euint32 → euint32 → option euint32;
  FHE_checkSignatures : uint256 → bytes → bytes → bool;
  keccak256 : string → uint256;
  abi_decode_uint32_array : bytes → option (list uint32);
  abi_decode_uint32 : bytes → option uint32
}.

(** The decryption oracle as one call sees it: [FHE.requestDecryption]
    answers with a request id, or reverts. *)
Definition Oracle := list bytes32 → Selector → option uint256.

(** [FHE.isInitialized]: a handle is set once it is not the zero word. *)
Definition FHE_isInitialized (v : euint32) : bool := negb (v =? 0).

Definition FHE_toBytes32 (v : euint32) : bytes32 := v.

Section Contract.

Context (fhe : FHEVM).

(** [modifier onlyTenant(uint256 dataId) { _; }] *)
Definition onlyTenant {A} (ctx : Ctx) (dataId : uint256) (body : Tx A) : Tx A :=
  body.

Definition bytes32ToUint (b : bytes32) : uint256 := b.

(** [FHE.checkSignatures(requestId, cleartexts, proof)], which reverts on
    a proof that does not verify and logs [DecryptionFulfilled] on one that
    does. *)
Definition checkSignatures (requestId : uint256) (cleartexts proof : bytes)
    : Tx unit :=
  if FHE_checkSignatures fhe requestId cleartexts proof
  then emit (DecryptionFulfilled requestId)
  else revert InvalidProof.

Definition submitEncryptedEnergyData (ctx : Ctx)
    (encryptedTenantUsage encryptedTimestamp encryptedSystemLoad : euint32)
    : Tx unit :=
  let! count := sload dataCount in
  let! count' := checked_add count 1 in
  sstore (set_dataCount count') ;;
  let! newId := sload dataCount in
  sstore (set_encryptedData newId
    {| id := newId;
       encryptedTenantUsage := encryptedTenantUsage;
       encryptedTimestamp := encryptedTimestamp;
       encryptedSystemLoad := encryptedSystemLoad;
       timestamp := block_timestamp ctx |}) ;;
  sstore (set_decryptedData newId
    {| tenantUsage := 0; systemLoad := 0; isRevealed := false |}) ;;
  emit (EnergyDataSubmitted newId (block_timestamp ctx)).

Definition requestEnergyDataDecryption (ctx : Ctx) (oracle : Oracle)
    (dataId : uint256) : Tx unit :=
  onlyTenant ctx dataId (
    let! dataEntry := sload (λ s, mload (encryptedData s) dataId) in
    let! dData := sload (λ s, mload (decryptedData s) dataId) in
    require (negb (isRevealed dData)) "Already decrypted" ;;
    let ciphertexts :=
      [ FHE_toBytes32 (encryptedTenantUsage dataEntry);
        FHE_toBytes32 (encryptedTimestamp dataEntry);
        FHE_toBytes32 (encryptedSystemLoad dataEntry) ] in
    let! reqId :=
      external (oracle ciphertexts decryptEnergyData_selector) OracleRefused in
    sstore (set_requestToDataId reqId dataId) ;;
    emit (DecryptionRequested dataId)).

Definition decryptEnergyData (ctx : Ctx) (requestId : uint256)
    (cleartexts proof : bytes) : Tx unit :=
  let! dataId := sload (λ s, mload (requestToDataId s) requestId) in
  require (negb (dataId =? 0)) "Invalid request" ;;
  let! dData := sload (λ s, mload (decryptedData s) dataId) in
  require (negb (isRevealed dData)) "Already decrypted" ;;
  checkSignatures requestId cleartexts proof ;;
  let! results := external (abi_decode_uint32_array fhe cleartexts) DecodeFailed in
  let! r0 := index results 0 in
  let! r2 := index results 2 in
  sstore (set_decryptedData dataId
    {| tenantUsage := r0; systemLoad := r2; isRevealed := true |}) ;;
  let systemKey := "central_system"%string in
  let! sum := sload (λ s, mload (encryptedLoadSum s) systemKey) in
  (if FHE_isInitialized sum then ret tt
   else
     let! zero := external (FHE_asEuint32 fhe 0) CoprocessorRefused in
     sstore (set_encryptedLoadSum systemKey zero) ;;
     sstore (push_systemList systemKey)) ;;
  let! sum := sload (λ s, mload (encryptedLoadSum s) systemKey) in
  let! load := external (FHE_asEuint32 fhe r2) CoprocessorRefused in
  let! total := external (FHE_add fhe sum load) CoprocessorRefused in
  sstore (set_encryptedLoadSum systemKey total) ;;
  emit (EnergyDataDecrypted dataId).

Definition getDecryptedEnergyData (ctx : Ctx) (dataId : uint256)
    : Tx (uint32 * uint32 * bool) :=
  let! dataEntry := sload (λ s, mload (decryptedData s) dataId) in
  ret (tenantUsage dataEntry, systemLoad dataEntry, isRevealed dataEntry).

Definition getEncryptedLoadSum (ctx : Ctx) (systemKey : string) : Tx euint32 :=
  sload (λ s, mload (encryptedLoadSum s) systemKey).

Definition requestLoadSumDecryption (ctx : Ctx) (oracle : Oracle)
    (systemKey : string) : Tx unit :=
  let! sum := sload (λ s, mload (encryptedLoadSum s) systemKey) in
  require (FHE_isInitialized sum) "System not found" ;;
  let ciphertexts := [ FHE_toBytes32 sum ] in
  let! reqId :=
    external (oracle ciphertexts decryptLoadSum_selector) OracleRefused in
  sstore (set_requestToDataId reqId (bytes32ToUint (keccak256 fhe systemKey))).

(** The loop of [getSystemFromHash] over the remaining entries. *)
Fixpoint getSystemFromHash_loop (l : list string) (hash : uint256)
    : option string :=
  match l with
  | [] => None
  | k :: l' =>
      if bytes32ToUint (keccak256 fhe k) =? hash then Some k
      else getSystemFromHash_loop l' hash
  end.

Definition getSystemFromHash (hash : uint256) : Tx string :=
  let! l := sload systemList in
  external (getSystemFromHash_loop l hash) (Require "System not found").

Definition decryptLoadSum (ctx : Ctx) (requestId : uint256)
    (cleartexts proof : bytes) : Tx unit :=
  let! systemHash := sload (λ s, mload (requestToDataId s) requestId) in
  let! systemKey := getSystemFromHash systemHash in
  checkSignatures requestId cleartexts proof ;;
  let! sum := external (abi_decode_uint32 fhe cleartexts) DecodeFailed in
  ret tt.

(** ** Calls and executions *)

Inductive Call :=
| SubmitEncryptedEnergyData (usage time load : euint32)
| RequestEnergyDataDecryption (oracle : Oracle) (dataId : uint256)
| DecryptEnergyData (requestId : uint256) (cleartexts proof : bytes)
| GetDecryptedEnergyData (dataId : uint256)
| GetEncryptedLoadSum (systemKey : string)
| RequestLoadSumDecryption (oracle : Oracle) (systemKey : string)
| DecryptLoadSum (requestId : uint256) (cleartexts proof : bytes).

Definition discard {A} (m : Tx A) : Tx unit := let! _ := m in ret tt.

Definition dispatch (ctx : Ctx) (c : Call) : Tx unit :=
  match c with
  | SubmitEncryptedEnergyData u t l => submitEncryptedEnergyData ctx u t l
  | RequestEnergyDataDecryption o i => requestEnergyDataDecryption ctx o i
  | DecryptEnergyData r c p => decryptEnergyData ctx r c p
  | GetDecryptedEnergyData i => discard (getDecryptedEnergyData ctx i)
  | GetEncryptedLoadSum k => discard (getEncryptedLoadSum ctx k)
  | RequestLoadSumDecryption o k => requestLoadSumDecryption ctx o k
  | DecryptLoadSum r c p => decryptLoadSum ctx r c p
  end.

(** One transaction on the ledger: a revert leaves the storage as it was. *)
Definition transact (s : Storage) (c : Ctx * Call) : Storage :=
  match dispatch (fst c) (snd c) s with
  | inl _ => s
  | inr (_, s', _) => s'
  end.

Definition succeeds (s : Storage) (c : Ctx * Call) : bool :=
  match dispatch (fst c) (snd c) s with inl _ => false | inr _ => true end.

Definition emitted (s : Storage) (c : Ctx * Call) : list Event :=
  match dispatch (fst c) (snd c) s with
  | inl _ => []
  | inr (_, _, l) => l
  end.

(** A history of transactions, oldest first. *)
Fixpoint run (s : Storage) (l : list (Ctx * Call)) : Storage :=
  match l with
  | [] => s
  | c :: l' => run (transact s c) l'
  end.

(** The event log of a history. *)
Fixpoint logs (s : Storage) (l : list (Ctx * Call)) : list Event :=
  match l with
  | [] => []
  | c :: l' => emitted s c ++ logs (transact s c) l'
  end.

(** ** Observations on a history *)

Definition central_system : string := "central_system".

(** The storage a successful [decryptEnergyData] leaves, given the target
    and the two clear texts it keeps; none where the coprocessor refuses. *)
Definition revealed (dataId : uint256) (r0 r2 : uint32) (s : Storage)
    : option Storage :=
  let s1 := set_decryptedData dataId
              {| tenantUsage := r0; systemLoad := r2; isRevealed := true |} s in
  match (if FHE_isInitialized (mload (encryptedLoadSum s1) central_system)
         then Some s1
         else match FHE_asEuint32 fhe 0 with
              | Some zero =>
                  Some (push_systemList central_system
                          (set_encryptedLoadSum central_system zero s1))
              | None => None
              end) with
  | Some s2 =>
      match FHE_asEuint32 fhe r2 with
      | Some load =>
          match FHE_add fhe (mload (encryptedLoadSum s2) central_system) load with
          | Some total => Some (set_encryptedLoadSum central_system total s2)
          | None => None
          end
      | None => None
      end
  | None => None
  end.

(** The RevealRecord a callback carries in its clear texts. *)
Definition carried (c : Ctx * Call) : option DecryptedEnergyData :=
  match snd c with
  | DecryptEnergyData _ cleartexts _ =>
      match abi_decode_uint32_array fhe cleartexts with
      | Some results =>
          match results !! 0%nat, results !! 2%nat with
          | Some r0, Some r2 =>
              Some {| tenantUsage := r0; systemLoad := r2; isRevealed := true |}
          | _, _ => None
          end
      | None => None
      end
  | _ => None
  end.

(** [c] is a successful [decryptEnergyData] for a request mapped to [i]. *)
Definition reveals (s : Storage) (c : Ctx * Call) (i : uint256) : bool :=
  match snd c with
  | DecryptEnergyData requestId _ _ =>
      succeeds s c && (mload (requestToDataId s) requestId =? i)
  | _ => false
  end.

(** How many transactions of a history reveal submission [i]. *)
Fixpoint reveal_count (s : Storage) (l : list (Ctx * Call)) (i : uint256) : nat :=
  match l with
  | [] => 0
  | c :: l' =>
      ((if reveals s c i then 1 else 0) + reveal_count (transact s c) l' i)%nat
  end.

(** [c] is a successful [requestEnergyDataDecryption] that the oracle
    answered with request id [r]. *)
Definition records_reveal_request (s : Storage) (c : Ctx * Call) (r : uint256) : bool :=
  match snd c with
  | RequestEnergyDataDecryption oracle dataId =>
      let e := mload (encryptedData s) dataId in
      succeeds s c &&
      bool_decide (oracle [encryptedTenantUsage e; encryptedTimestamp e;
                           encryptedSystemLoad e] decryptEnergyData_selector = Some r)
  | _ => false
  end.

(** [c] is a successful [requestLoadSumDecryption] that the oracle answered
    with request id [r]. *)
Definition records_sum_request (s : Storage) (c : Ctx * Call) (r : uint256) : bool :=
  match snd c with
  | RequestLoadSumDecryption oracle systemKey =>
      succeeds s c &&
      bool_decide (oracle [mload (encryptedLoadSum s) systemKey]
                     decryptLoadSum_selector = Some r)
  | _ => false
  end.

(** [c] is a successful [decryptEnergyData], the one transaction that
    feeds the accumulator. *)
Definition accumulates (s : Storage) (c : Ctx * Call) : bool :=
  match snd c with
  | DecryptEnergyData _ _ _ => succeeds s c
  | _ => false
  end.

(** Some transaction of the history satisfies [P] in the storage it ran on. *)
Fixpoint ever (P : Storage → Ctx * Call → bool) (s : Storage)
    (l : list (Ctx * Call)) : bool :=
  match l with
  | [] => false
  | c :: l' => P s c || ever P (transact s c) l'
  end.

(** Every transaction of the history satisfies [P] in the storage it ran on. *)
Fixpoint every (P : Storage → Ctx * Call → bool) (s : Storage)
    (l : list (Ctx * Call)) : bool :=
  match l with
  | [] => true
  | c :: l' => P s c && every P (transact s c) l'
  end.

(** The submission id a callback resolves to. *)
Definition target (s : Storage) (c : Ctx * Call) : uint256 :=
  match snd c with
  | DecryptEnergyData requestId _ _ => mload (requestToDataId s) requestId
  | _ => 0
  end.

(** The load a callback reveals, and the exact sum of the loads of a list of
    callbacks. *)
Definition revealed_load (c : Ctx * Call) : Z :=
  match carried c with
  | Some d => systemLoad d
  | None => 0
  end.

Definition sum_of_loads (l : list (Ctx * Call)) : Z :=
  foldr (λ c acc, revealed_load c + acc) 0 l.

(** The handle [getEncryptedLoadSum("central_system")] returns, and the
    clear value behind the accumulator under a decryption function: zero as
    long as the accumulator is not initialized. *)
Definition central_sum (s : Storage) : euint32 :=
  mload (encryptedLoadSum s) central_system.

Definition clear_sum (decrypt : euint32 → uint32) (s : Storage) : Z :=
  if FHE_isInitialized (central_sum s) then decrypt (central_sum s) else 0.

(** The ids announced by the [EnergyDataSubmitted] events of a log. *)
Fixpoint submitted_ids (log : list Event) : list uint256 :=
  match log with
  | [] => []
  | EnergyDataSubmitted i _ :: log' => i :: submitted_ids log'
  | _ :: log' => submitted_ids log'
  end.

End Contract.

Arguments Call : clear implicits.

(** ** Further observations on a history *)

Section MoreObservations.
Context (fhe : FHEVM).

(** How many [EnergyDataDecrypted] events of a log announce id [i]. *)
Fixpoint decrypted_events (log : list Event) (i : uint256) : nat :=
  match log with
  | [] => 0
  | EnergyDataDecrypted j :: log' =>
      ((if (j =? i)%Z then 1 else 0) + decrypted_events log' i)%nat
  | _ :: log' => decrypted_events log' i
  end.

(** The exact sum of the loads revealed by the callbacks of a history that
    succeeded. *)
Fixpoint accumulated (s : Storage) (l : list (Ctx * Call)) : Z :=
  match l with
  | [] => 0
  | c :: l' =>
      (if accumulates fhe s c then revealed_load fhe c else 0)
      + accumulated (transact fhe s c) l'
  end.

(** [c] is a successful request, of either kind, that records a request id
    for target [i]: a submission id, or the hash of a system key. *)
Definition requests_target (s : Storage) (c : Ctx * Call) (i : uint256) : bool :=
  match snd c with
  | RequestEnergyDataDecryption _ dataId => succeeds fhe s c && (dataId =? i)
  | RequestLoadSumDecryption _ systemKey =>
      succeeds fhe s c && (bytes32ToUint (keccak256 fhe systemKey) =? i)
  | _ => false
  end.

(** [c] is a [submitEncryptedEnergyData] that succeeds, and how many of a
    history are. *)
Definition submits (s : Storage) (c : Ctx * Call) : bool :=
  match snd c with
  | SubmitEncryptedEnergyData _ _ _ => succeeds fhe s c
  | _ => false
  end.

Fixpoint submit_count (s : Storage) (l : list (Ctx * Call)) : nat :=
  match l with
  | [] => 0
  | c :: l' => ((if submits s c then 1 else 0) + submit_count (transact fhe s c) l')%nat
  end.

(** The coprocessor answers every call a reveal callback makes to feed load
    [v] into the accumulator as storage [s] holds it. *)
Definition accepts (s : Storage) (v : uint32) : bool :=
  match FHE_asEuint32 fhe v with
  | Some load =>
      if FHE_isInitialized (central_sum s)
      then bool_decide (is_Some (FHE_add fhe (central_sum s) load))
      else match FHE_asEuint32 fhe 0 with
           | Some zero => bool_decide (is_Some (FHE_add fhe zero load))
           | None => false
           end
  | None => false
  end.

End MoreObservations.

(** ** A reference environment

    A clear-text stand-in for the coprocessor and the oracle, used to run the
    contract on concrete histories. A handle carries its plaintext in the low
    32 bits under a tag bit, so that no handle it produces is the zero word,
    and the coprocessor accepts every operand; a proof verifies when it is
    the low byte of the request id followed by the clear texts it signs; the
    decoders read the head at its offset and ignore what follows the data. *)

Module Reference.

Definition TAG : Z := 2 ^ 32.

Definition decrypt (h : euint32) : uint32 := h mod 2 ^ 32.

Definition asEuint32 (v : uint32) : option euint32 := Some (TAG + v mod 2 ^ 32).

Definition add (a b : euint32) : option euint32 :=
  Some (TAG + (decrypt a + decrypt b) mod 2 ^ 32).

Definition byte_of (z : Z) : Byte.byte :=
  default Byte.x00 (Byte.of_N (Z.to_N (z mod 256))).

(** [z] as [n] big-endian bytes. *)
Fixpoint be (n : nat) (z : Z) : bytes :=
  match n with
  | O => []
  | S n' => be n' (z / 256) ++ [byte_of z]
  end.

Definition word (bs : bytes) : Z :=
  fold_left (λ acc b, acc * 256 + Z.of_N (Byte.to_N b)) bs 0.

Fixpoint words (n : nat) (bs : bytes) : list Z :=
  match n with
  | O => []
  | S n' => word (take 32 bs) :: words n' (drop 32 bs)
  end.

(** [abi.encode(uint32[])]: offset word, length word, one word per entry. *)
Definition encode_uint32_array (l : list uint32) : bytes :=
  be 32 32 ++ be 32 (Z.of_nat (length l)) ++ flat_map (be 32) l.

Definition decode_uint32_array (bs : bytes) : option (list uint32) :=
  let size := Z.of_nat (length bs) in
  let off := word (take 32 bs) in
  if (32 <=? size) && (off + 32 <=? size) then
    let len := word (take 32 (drop (Z.to_nat off) bs)) in
    if off + 32 + 32 * len <=? size then
      let elems := words (Z.to_nat len) (drop (Z.to_nat off + 32) bs) in
      if forallb (λ w, w <=? MAX_UINT32) elems then Some elems else None
    else None
  else None.

Definition encode_uint32 (v : uint32) : bytes := be 32 v.

Definition decode_uint32 (bs : bytes) : option uint32 :=
  if (32 <=? Z.of_nat (length bs)) && (word (take 32 bs) <=? MAX_UINT32)
  then Some (word (take 32 bs)) else None.

Definition sign (requestId : uint256) (cleartexts : bytes) : bytes :=
  byte_of requestId :: cleartexts.

Definition verify (requestId : uint256) (cleartexts proof : bytes) : bool :=
  bool_decide (proof = sign requestId cleartexts).

(** A stand-in hash: the bytes of the key under a leading 1, so that it is
    never zero and distinct short keys have distinct hashes. *)
Fixpoint hash_from (acc : Z) (k : string) : Z :=
  match k with
  | EmptyString => acc
  | String c k' => hash_from (acc * 256 + Z.of_N (Ascii.N_of_ascii c)) k'
  end.

Definition hash (k : string) : uint256 := hash_from 1 k mod 2 ^ 256.

Definition fhe : FHEVM :=
  {| FHE_asEuint32 := asEuint32;
     FHE_add := add;
     FHE_checkSignatures := verify;
     keccak256 := hash;
     abi_decode_uint32_array := decode_uint32_array;
     abi_decode_uint32 := decode_uint32 |}.

(** A coprocessor that guards its operands as the access control of an FHE
    host does: a handle returned by an addition is one the contract stored
    in an earlier transaction without being granted access to it, and an
    addition on it is refused. Such handles carry a second tag bit. *)
Definition SUM_TAG : Z := 2 ^ 33.

Definition add_guarded (a b : euint32) : option euint32 :=
  if (SUM_TAG <=? a) || (SUM_TAG <=? b) then None
  else Some (SUM_TAG + (decrypt a + decrypt b) mod 2 ^ 32).

Definition guarded : FHEVM :=
  {| FHE_asEuint32 := asEuint32;
     FHE_add := add_guarded;
     FHE_checkSignatures := verify;
     keccak256 := hash;
     abi_decode_uint32_array := decode_uint32_array;
     abi_decode_uint32 := decode_uint32 |}.

(** An oracle that hands out the given request id. *)
Definition grants (reqId : uint256) : Oracle := λ _ _, Some reqId.

Definition tenant (a : Z) : Ctx := {| msg_sender := a; block_timestamp := 1700000000 |}.

(** The callback the oracle delivers for request [reqId] with the three
    clear texts of a submission. *)
Definition reveal (reqId : uint256) (usage time load : uint32) : Ctx * Call :=
  let c := encode_uint32_array [usage; time; load] in
  (tenant 0, DecryptEnergyData reqId c (sign reqId c)).

End Reference.

(** ** Scenarios

    Concrete histories in the reference environment. *)

Definition alice : Ctx := Reference.tenant 7.
Definition bob : Ctx := Reference.tenant 8.

Definition one_submission : Storage :=
  run Reference.fhe deployed [ (alice, SubmitEncryptedEnergyData 11 12 13) ].

(** Submission 1 is requested and revealed; a second submission arrives, the
    record is read, and the reveal of 1 is requested and answered again. *)
Definition write_once_history : list (Ctx * Call) :=
  [ (alice, RequestEnergyDataDecryption (Reference.grants 0) 1);
    Reference.reveal 0 40 50 60;
    (bob, SubmitEncryptedEnergyData 21 22 23);
    (bob, GetDecryptedEnergyData 1);
    (alice, RequestEnergyDataDecryption (Reference.grants 1) 1);
    Reference.reveal 1 41 51 61 ].

(** One submission with its reveal requested under request id 0. *)
Definition one_requested : Storage :=
  run Reference.fhe one_submission
    [ (alice, RequestEnergyDataDecryption (Reference.grants 0) 1) ].

(** The clear texts of the oracle's answer, and a proof that is not the
    signature over them. *)
Definition answer_40_50_60 : bytes := Reference.encode_uint32_array [40; 50; 60].
Definition tampered_proof : bytes := Reference.sign 0 (Reference.encode_uint32_array [40; 50; 61]).

(** One submission revealed, then the sum of "central_system" requested
    under request id 1. *)
Definition sum_requested : Storage :=
  run Reference.fhe one_requested
    [ Reference.reveal 0 40 50 60;
      (bob, RequestLoadSumDecryption (Reference.grants 1) central_system) ].

(** The oracle's answer to the sum request: the clear sum and its proof. *)
Definition sum_answer : Ctx * Call :=
  (bob, DecryptLoadSum 1 (Reference.encode_uint32 60)
          (Reference.sign 1 (Reference.encode_uint32 60))).

(** The history that leads there from deployment. *)
Definition sum_requested_history : list (Ctx * Call) :=
  [ (alice, SubmitEncryptedEnergyData 11 12 13);
    (alice, RequestEnergyDataDecryption (Reference.grants 0) 1);
    Reference.reveal 0 40 50 60;
    (bob, RequestLoadSumDecryption (Reference.grants 1) central_system) ].

(** A reveal callback delivered under the request id of the sum request. *)
Definition crossed_callback : Ctx * Call := Reference.reveal 1 1 2 3.

(** A reveal requested and answered for id 1 before anything was submitted,
    and the submission that is then given id 1. *)
Definition revealed_ahead : Storage :=
  run Reference.fhe deployed
    [ (bob, RequestEnergyDataDecryption (Reference.grants 0) 1);
      Reference.reveal 0 40 50 60 ].

Definition late_submission : Ctx * Call :=
  (alice, SubmitEncryptedEnergyData 11 12 13).

(** Two submissions with loads 10 and 20, each with its reveal requested. *)
Definition two_requested : Storage :=
  run Reference.fhe deployed
    [ (alice, SubmitEncryptedEnergyData 101 102 103);
      (bob, SubmitEncryptedEnergyData 201 202 203);
      (alice, RequestEnergyDataDecryption (Reference.grants 0) 1);
      (bob, RequestEnergyDataDecryption (Reference.grants 1) 2) ].

Definition reveal_A : Ctx * Call := Reference.reveal 0 1 1700000000 10.
Definition reveal_B : Ctx * Call := Reference.reveal 1 2 1700000000 20.

(** Three readings with loads 5, 7 and 9, requested and revealed in arrival
    order. *)
Definition three_readings : list (Ctx * Call) :=
  [ (alice, SubmitEncryptedEnergyData 101 102 103);
    (bob, SubmitEncryptedEnergyData 201 202 203);
    (alice, SubmitEncryptedEnergyData 301 302 303);
    (alice, RequestEnergyDataDecryption (Reference.grants 0) 1);
    (bob, RequestEnergyDataDecryption (Reference.grants 1) 2);
    (alice, RequestEnergyDataDecryption (Reference.grants 2) 3);
    Reference.reveal 0 1 1700000000 5;
    Reference.reveal 1 2 1700000000 7;
    Reference.reveal 2 3 1700000000 9 ].

(** What happens while the request for submission 1 is pending: a third
    submission, its reveal request, and a callback for submission 2 whose
    proof is not accepted. *)
Definition pending_history : list (Ctx * Call) :=
  [ (alice, SubmitEncryptedEnergyData 301 302 303);
    (bob, RequestEnergyDataDecryption (Reference.grants 2) 3);
    (bob, DecryptEnergyData 1 (Reference.encode_uint32_array [2; 1700000000; 20])
            tampered_proof) ].

(** Clear texts that decode to two values only, with a proof over them. *)
Definition answer_40_50 : bytes := Reference.encode_uint32_array [40; 50].

(** * Properties *)

(** ** Mappings *)

Section MappingFacts.
Context {K : Type} `{Countable K} {V : Type} `{Zero V} `{EqDecision V}.

Lemma mload_mstore (m : gmap K V) (k k' : K) (v : V) :
  mload (mstore k v m) k' = if decide (k = k') then v else mload m k'.
Proof.
  unfold mload, mstore.
  destruct (decide (v = zero)) as [->|Hv], (decide (k = k')) as [->|Hk].
  - by rewrite lookup_delete_eq.
  - by rewrite lookup_delete_ne.
  - by rewrite lookup_insert_eq.
  - by rewrite lookup_insert_ne.
Qed.

Lemma mload_mstore_eq (m : gmap K V) (k : K) (v : V) :
  mload (mstore k v m) k = v.
Proof. rewrite mload_mstore. by destruct (decide (k = k)). Qed.

Lemma mload_mstore_ne (m : gmap K V) (k k' : K) (v : V) :
  k ≠ k' → mload (mstore k v m) k' = mload m k'.
Proof. intros Hk. rewrite mload_mstore. by destruct (decide (k = k')). Qed.

Lemma mload_empty (k : K) : mload (∅ : gmap K V) k = zero.
Proof. unfold mload. by rewrite lookup_empty. Qed.

End MappingFacts.

(** Concrete histories are settled by running them. *)
Ltac run_scenario :=
  repeat match goal with
         | |- _ ∧ _ => split
         | |- let _ := _ in _ => intro
         end;
  vm_compute; reflexivity.

(** ** What each function does to the storage *)

Ltac tx_unfold :=
  unfold submitEncryptedEnergyData, requestEnergyDataDecryption,
    decryptEnergyData, getDecryptedEnergyData, getEncryptedLoadSum,
    requestLoadSumDecryption, decryptLoadSum, getSystemFromHash, onlyTenant,
    checkSignatures, discard, checked_add, index, external, require, bind,
    sload, sstore, emit, ret, revert.

Section Effects.
Context (fhe : FHEVM).

Lemma submit_effect ctx u t l s :
  submitEncryptedEnergyData ctx u t l s =
    let n := dataCount s + 1 in
    if n <=? MAX_UINT256 then
      inr (tt,
           set_decryptedData n zero
             (set_encryptedData n
                {| id := n; encryptedTenantUsage := u; encryptedTimestamp := t;
                   encryptedSystemLoad := l; timestamp := block_timestamp ctx |}
                (set_dataCount n s)),
           [EnergyDataSubmitted n (block_timestamp ctx)])
    else inl (Panic 0x11).
Proof. tx_unfold. simpl. by destruct (dataCount s + 1 <=? MAX_UINT256). Qed.

Lemma request_effect ctx oracle dataId s :
  requestEnergyDataDecryption ctx oracle dataId s =
    let e := mload (encryptedData s) dataId in
    if isRevealed (mload (decryptedData s) dataId)
    then inl (Require "Already decrypted")
    else match oracle [encryptedTenantUsage e; encryptedTimestamp e;
                       encryptedSystemLoad e] decryptEnergyData_selector with
         | Some reqId =>
             inr (tt, set_requestToDataId reqId dataId s,
                  [DecryptionRequested dataId])
         | None => inl OracleRefused
         end.
Proof.
  tx_unfold. unfold FHE_toBytes32. simpl.
  destruct (isRevealed (mload (decryptedData s) dataId)); simpl; [done|].
  by destruct (oracle _ _).
Qed.

Lemma decrypt_effect ctx requestId cleartexts proof s :
  decryptEnergyData fhe ctx requestId cleartexts proof s =
    let dataId := mload (requestToDataId s) requestId in
    if dataId =? 0 then inl (Require "Invalid request")
    else if isRevealed (mload (decryptedData s) dataId)
    then inl (Require "Already decrypted")
    else if FHE_checkSignatures fhe requestId cleartexts proof then
      match abi_decode_uint32_array fhe cleartexts with
      | None => inl DecodeFailed
      | Some results =>
          match results !! 0%nat with
          | None => inl (Panic 0x32)
          | Some r0 =>
              match results !! 2%nat with
              | None => inl (Panic 0x32)
              | Some r2 =>
                  match revealed fhe dataId r0 r2 s with
                  | Some s' =>
                      inr (tt, s', [DecryptionFulfilled requestId;
                                    EnergyDataDecrypted dataId])
                  | None => inl CoprocessorRefused
                  end
              end
          end
      end
    else inl InvalidProof.
Proof.
  tx_unfold. unfold revealed, central_system. simpl.
  destruct (mload (requestToDataId s) requestId =? 0); simpl; [done|].
  destruct (isRevealed _); simpl; [done|].
  destruct (FHE_checkSignatures _ _ _ _); simpl; [|done].
  destruct (abi_decode_uint32_array _ _) as [results|]; simpl; [|done].
  destruct (results !! 0%nat) as [r0|]; simpl; [|done].
  destruct (results !! 2%nat) as [r2|]; simpl; [|done].
  destruct (FHE_isInitialized _); simpl.
  - destruct (FHE_asEuint32 fhe r2) as [load|]; simpl; [|done].
    by destruct (FHE_add fhe _ load).
  - destruct (FHE_asEuint32 fhe 0) as [zero|]; simpl; [|done].
    destruct (FHE_asEuint32 fhe r2) as [load|]; simpl; [|done].
    by destruct (FHE_add fhe _ load).
Qed.

Lemma requestSum_effect ctx oracle systemKey s :
  requestLoadSumDecryption fhe ctx oracle systemKey s =
    let sum := mload (encryptedLoadSum s) systemKey in
    if FHE_isInitialized sum then
      match oracle [sum] decryptLoadSum_selector with
      | Some reqId =>
          inr (tt, set_requestToDataId reqId (keccak256 fhe systemKey) s, [])
      | None => inl OracleRefused
      end
    else inl (Require "System not found").
Proof.
  tx_unfold. unfold FHE_toBytes32, bytes32ToUint. simpl.
  destruct (FHE_isInitialized _); simpl; [|done].
  by destruct (oracle _ _).
Qed.

Lemma decryptSum_effect ctx requestId cleartexts proof s :
  decryptLoadSum fhe ctx requestId cleartexts proof s =
    match getSystemFromHash_loop fhe (systemList s)
            (mload (requestToDataId s) requestId) with
    | None => inl (Require "System not found")
    | Some _ =>
        if FHE_checkSignatures fhe requestId cleartexts proof then
          match abi_decode_uint32 fhe cleartexts with
          | Some _ => inr (tt, s, [DecryptionFulfilled requestId])
          | None => inl DecodeFailed
          end
        else inl InvalidProof
    end.
Proof.
  tx_unfold. simpl.
  destruct (getSystemFromHash_loop _ _ _); simpl; [|done].
  destruct (FHE_checkSignatures _ _ _ _); simpl; [|done].
  by destruct (abi_decode_uint32 _ _).
Qed.

Lemma getData_effect ctx dataId s :
  getDecryptedEnergyData ctx dataId s =
    let d := mload (decryptedData s) dataId in
    inr ((tenantUsage d, systemLoad d, isRevealed d), s, []).
Proof. reflexivity. Qed.

Lemma getSum_effect ctx systemKey s :
  getEncryptedLoadSum ctx systemKey s =
    inr (mload (encryptedLoadSum s) systemKey, s, []).
Proof. reflexivity. Qed.

End Effects.

(** ** One transaction at a time *)

Section Steps.
Context (fhe : FHEVM).

Implicit Types (s : Storage) (c : Ctx * Call) (i : uint256).

(** The outcome of a successful callback, read off its guards. *)
Lemma decrypt_success ctx requestId cleartexts proof s :
  succeeds fhe s (ctx, DecryptEnergyData requestId cleartexts proof) = true →
  ∃ r0 r2,
    let dataId := mload (requestToDataId s) requestId in
    dataId ≠ 0 ∧
    isRevealed (mload (decryptedData s) dataId) = false ∧
    FHE_checkSignatures fhe requestId cleartexts proof = true ∧
    carried fhe (ctx, DecryptEnergyData requestId cleartexts proof) =
      Some {| tenantUsage := r0; systemLoad := r2; isRevealed := true |} ∧
    revealed fhe dataId r0 r2 s =
      Some (transact fhe s (ctx, DecryptEnergyData requestId cleartexts proof)).
Proof.
  unfold succeeds, transact, carried. simpl. rewrite decrypt_effect. simpl.
  destruct (mload (requestToDataId s) requestId =? 0) eqn:Hz; [done|].
  destruct (isRevealed _) eqn:Hr; [done|].
  destruct (FHE_checkSignatures _ _ _ _); [|done].
  destruct (abi_decode_uint32_array _ _) as [results|]; [|done].
  destruct (results !! 0%nat) as [r0|]; [|done].
  destruct (results !! 2%nat) as [r2|]; [|done].
  destruct (revealed fhe _ r0 r2 s) as [s'|] eqn:Hs; [|done].
  intros _. exists r0, r2. rewrite Hs. repeat split; try done. by apply Z.eqb_neq.
Qed.

Lemma decrypt_failure ctx requestId cleartexts proof s :
  succeeds fhe s (ctx, DecryptEnergyData requestId cleartexts proof) = false →
  transact fhe s (ctx, DecryptEnergyData requestId cleartexts proof) = s.
Proof.
  unfold succeeds, transact. simpl.
  by destruct (decryptEnergyData _ _ _ _ _ _) as [|[[] ]].
Qed.

(** A callback either reverts, or passes through [revealed] and logs the
    library's event followed by the contract's. *)
Lemma decrypt_cases ctx requestId cleartexts proof s :
  let c := (ctx, DecryptEnergyData requestId cleartexts proof) in
  let dataId := mload (requestToDataId s) requestId in
  (succeeds fhe s c = false ∧ transact fhe s c = s ∧ emitted fhe s c = []) ∨
  (succeeds fhe s c = true ∧
   emitted fhe s c = [DecryptionFulfilled requestId; EnergyDataDecrypted dataId] ∧
   ∃ r0 r2, revealed fhe dataId r0 r2 s = Some (transact fhe s c)).
Proof.
  unfold succeeds, transact, emitted. simpl. rewrite decrypt_effect. simpl.
  destruct (mload (requestToDataId s) requestId =? 0); [by left|].
  destruct (isRevealed _); [by left|].
  destruct (FHE_checkSignatures _ _ _ _); [|by left].
  destruct (abi_decode_uint32_array _ _) as [results|]; [|by left].
  destruct (results !! 0%nat) as [r0|]; [|by left].
  destruct (results !! 2%nat) as [r2|]; [|by left].
  destruct (revealed fhe _ r0 r2 s) as [s'|] eqn:Hs; [|by left].
  right. split; [done|]. split; [done|]. exists r0, r2. by rewrite Hs.
Qed.

(** The sum callback never writes; it logs the library's event when it is
    accepted. *)
Lemma decryptSum_cases ctx requestId cleartexts proof s :
  let c := (ctx, DecryptLoadSum requestId cleartexts proof) in
  transact fhe s c = s ∧
  (emitted fhe s c = [] ∨ emitted fhe s c = [DecryptionFulfilled requestId]).
Proof.
  unfold transact, emitted. simpl. rewrite decryptSum_effect.
  destruct (getSystemFromHash_loop _ _ _); [|by auto].
  destruct (FHE_checkSignatures _ _ _ _); [|by auto].
  destruct (abi_decode_uint32 _ _); by auto.
Qed.

(** What [revealed] writes: the record of its target and the accumulator of
    "central_system", registering the key where the accumulator was unset. *)
Lemma revealed_inv dataId r0 r2 s s' :
  revealed fhe dataId r0 r2 s = Some s' →
  ∃ load total,
    FHE_asEuint32 fhe r2 = Some load ∧
    (if FHE_isInitialized (mload (encryptedLoadSum s) central_system)
     then FHE_add fhe (mload (encryptedLoadSum s) central_system) load = Some total ∧
          systemList s' = systemList s
     else ∃ zero, FHE_asEuint32 fhe 0 = Some zero ∧
                  FHE_add fhe zero load = Some total ∧
                  systemList s' = systemList s ++ [central_system]) ∧
    dataCount s' = dataCount s ∧
    encryptedData s' = encryptedData s ∧
    decryptedData s' =
      mstore dataId {| tenantUsage := r0; systemLoad := r2; isRevealed := true |}
        (decryptedData s) ∧
    requestToDataId s' = requestToDataId s ∧
    mload (encryptedLoadSum s') central_system = total ∧
    (∀ k, k ≠ central_system →
          mload (encryptedLoadSum s') k = mload (encryptedLoadSum s) k).
Proof.
  unfold revealed. simpl.
  destruct (FHE_isInitialized (mload (encryptedLoadSum s) central_system)) eqn:Hi.
  - destruct (FHE_asEuint32 fhe r2) as [load|]; [|done].
    destruct (FHE_add fhe _ load) as [total|] eqn:Hadd; [|done].
    intros [= <-]. exists load, total. simpl.
    repeat split; try done; try apply mload_mstore_eq.
    intros k Hk. by apply mload_mstore_ne.
  - destruct (FHE_asEuint32 fhe 0) as [zero|]; [|done]. simpl.
    destruct (FHE_asEuint32 fhe r2) as [load|]; [|done].
    rewrite mload_mstore_eq.
    destruct (FHE_add fhe zero load) as [total|] eqn:Hadd; [|done].
    intros [= <-]. exists load, total. simpl.
    split; [done|]. split; [by exists zero|].
    repeat split; try done; try apply mload_mstore_eq.
    intros k Hk. by rewrite !mload_mstore_ne.
Qed.

Lemma revealed_decryptedData dataId r0 r2 s s' :
  revealed fhe dataId r0 r2 s = Some s' →
  decryptedData s' =
    mstore dataId {| tenantUsage := r0; systemLoad := r2; isRevealed := true |}
      (decryptedData s).
Proof. intros H. by destruct (revealed_inv _ _ _ _ _ H) as (? & ? & ? & ? & ? & ? & ? & ?). Qed.

Lemma revealed_dataCount dataId r0 r2 s s' :
  revealed fhe dataId r0 r2 s = Some s' → dataCount s' = dataCount s.
Proof. intros H. by destruct (revealed_inv _ _ _ _ _ H) as (? & ? & ? & ? & ? & ?). Qed.

Lemma revealed_requestToDataId dataId r0 r2 s s' :
  revealed fhe dataId r0 r2 s = Some s' → requestToDataId s' = requestToDataId s.
Proof.
  intros H. by destruct (revealed_inv _ _ _ _ _ H) as (? & ? & ? & ? & ? & ? & ? & ? & ?).
Qed.

(** Every transaction other than a successful callback leaves the reveal
    records of the existing submissions as they are; so does a successful
    callback on every record but its target. *)
Lemma transact_decryptedData s c i :
  1 ≤ i ≤ dataCount s →
  reveals fhe s c i = false →
  mload (decryptedData (transact fhe s c)) i = mload (decryptedData s) i.
Proof.
  intros Hi. destruct c as [ctx [u t l|o d|r ct p|d|k|o k|r ct p]];
    unfold reveals, transact; simpl.
  - intros _. rewrite submit_effect. simpl.
    destruct (dataCount s + 1 <=? MAX_UINT256); [|done]. simpl.
    apply mload_mstore_ne. lia.
  - intros _. rewrite request_effect. simpl.
    destruct (isRevealed _); [done|]. by destruct (o _ _).
  - intros Hrev.
    destruct (succeeds fhe s (ctx, DecryptEnergyData r ct p)) eqn:Hok.
    + destruct (decrypt_success _ _ _ _ _ Hok) as (r0 & r2 & _ & _ & _ & _ & Hs).
      unfold transact in Hs. simpl in Hs.
      rewrite (revealed_decryptedData _ _ _ _ _ Hs).
      apply mload_mstore_ne. simpl in Hrev. by apply Z.eqb_neq.
    + apply decrypt_failure in Hok. unfold transact in Hok. simpl in Hok.
      by rewrite Hok.
  - done.
  - done.
  - intros _. rewrite requestSum_effect. simpl.
    destruct (FHE_isInitialized _); [|done]. by destruct (o _ _).
  - intros _. rewrite decryptSum_effect.
    destruct (getSystemFromHash_loop _ _ _); [|done].
    destruct (FHE_checkSignatures _ _ _ _); [|done].
    by destruct (abi_decode_uint32 _ _).
Qed.

(** A successful callback for [i] finds the record unrevealed and leaves
    it revealed, holding the clear texts the callback carried. *)
Lemma transact_reveals s c i :
  reveals fhe s c i = true →
  isRevealed (mload (decryptedData s) i) = false ∧
  Some (mload (decryptedData (transact fhe s c)) i) = carried fhe c ∧
  isRevealed (mload (decryptedData (transact fhe s c)) i) = true.
Proof.
  destruct c as [ctx [u t l|o d|r ct p|d|k|o k|r ct p]];
    unfold reveals; simpl; try done.
  intros [Hok Hi%Z.eqb_eq]%andb_true_iff.
  destruct (decrypt_success _ _ _ _ _ Hok) as (r0 & r2 & _ & Hr & _ & Hc & Hs).
  simpl in Hr, Hs. rewrite Hi in Hr, Hs.
  rewrite Hc, (revealed_decryptedData _ _ _ _ _ Hs), mload_mstore_eq. by subst.
Qed.

(** The submission counter never decreases. *)
Lemma transact_dataCount s c : dataCount s ≤ dataCount (transact fhe s c).
Proof.
  destruct c as [ctx [u t l|o d|r ct p|d|k|o k|r ct p]]; unfold transact; simpl.
  - rewrite submit_effect. simpl.
    destruct (dataCount s + 1 <=? MAX_UINT256); simpl; lia.
  - rewrite request_effect. simpl.
    destruct (isRevealed _); [done|]. by destruct (o _ _).
  - destruct (succeeds fhe s (ctx, DecryptEnergyData r ct p)) eqn:Hok.
    + destruct (decrypt_success _ _ _ _ _ Hok) as (r0 & r2 & _ & _ & _ & _ & Hs).
      unfold transact in Hs. simpl in Hs.
      by rewrite (revealed_dataCount _ _ _ _ _ Hs).
    + apply decrypt_failure in Hok. unfold transact in Hok. simpl in Hok.
      by rewrite Hok.
  - done.
  - done.
  - rewrite requestSum_effect. simpl.
    destruct (FHE_isInitialized _); [|done]. by destruct (o _ _).
  - rewrite decryptSum_effect.
    destruct (getSystemFromHash_loop _ _ _); [|done].
    destruct (FHE_checkSignatures _ _ _ _); [|done].
    by destruct (abi_decode_uint32 _ _).
Qed.

End Steps.

(** ** The reveal record of a submission *)

Section RevealStore.
Context (fhe : FHEVM).

(** C1. For every submission id [i] (one the counter has reached) and every
    history [l] run from any storage [s]: at most one transaction of [l]
    reveals [i]; none does when the record is already revealed; with none,
    the record after [l] is the record before it, whatever else was called
    (submit, either request, the sum callback, the reads, failed calls and
    callbacks for other ids); with one, the record was unrevealed, is
    revealed afterwards, was untouched up to that transaction -- a
    successful [decryptEnergyData] for a request mapped to [i] -- and holds
    from then on exactly the usage and load that callback carried. *)
Theorem RevealRecord_write_once (s : Storage) (l : list (Ctx * Call)) (i : uint256) :
  1 ≤ i ≤ dataCount s →
  let d := λ s, mload (decryptedData s) i in
  (reveal_count fhe s l i ≤ 1)%nat ∧
  (isRevealed (d s) = true → reveal_count fhe s l i = 0%nat) ∧
  (reveal_count fhe s l i = 0%nat → d (run fhe s l) = d s) ∧
  (reveal_count fhe s l i = 1%nat →
     isRevealed (d s) = false ∧
     isRevealed (d (run fhe s l)) = true ∧
     ∃ l1 c l2,
       l = l1 ++ c :: l2 ∧
       reveals fhe (run fhe s l1) c i = true ∧
       d (run fhe s l1) = d s ∧
       carried fhe c = Some (d (run fhe s l))).
Proof.
  intros Hi d. revert s Hi. induction l as [|c l IH]; intros s Hi.
  - simpl. repeat split; try done. lia.
  - assert (1 ≤ i ≤ dataCount (transact fhe s c)) as Hi'.
    { pose proof (transact_dataCount fhe s c). lia. }
    destruct (IH _ Hi') as (IH1 & IH2 & IH3 & IH4). clear IH.
    simpl. destruct (reveals fhe s c i) eqn:Hrev.
    + destruct (transact_reveals fhe s c i Hrev) as (Hpre & Hcar & Hpost).
      specialize (IH2 Hpost). rewrite IH2. repeat split.
      * lia.
      * intros Hd. subst d. simpl in Hd. congruence.
      * done.
      * done.
      * subst d. simpl. rewrite (IH3 IH2). done.
      * exists [], c, l. simpl. repeat split; try done.
        subst d. simpl. rewrite <- Hcar. f_equal. symmetry. by apply IH3.
    + pose proof (transact_decryptedData fhe s c i Hi Hrev) as Hsame.
      simpl. repeat split.
      * done.
      * intros Hd. apply IH2. subst d. simpl in *. by rewrite Hsame.
      * intros Hc. subst d. simpl in *. by rewrite (IH3 Hc).
      * subst d. simpl in *. rewrite <- Hsame. by apply IH4.
      * by apply IH4.
      * destruct (IH4 H) as (_ & _ & l1 & c' & l2 & -> & Hr & Hd & Hc).
        exists (c :: l1), c', l2. simpl. repeat split; try done.
        subst d. simpl in *. by rewrite Hd.
Qed.

End RevealStore.

Lemma RevealRecord_write_once_witness :
  1 ≤ 1 ≤ dataCount one_submission ∧
  isRevealed (mload (decryptedData one_submission) 1) = false ∧
  isRevealed
    (mload (decryptedData (run Reference.fhe one_submission write_once_history)) 1)
    = true.
Proof.
  assert (1 ≤ 1 ≤ dataCount one_submission) as Hi by (vm_compute; split; discriminate).
  split; [exact Hi|].
  destruct (RevealRecord_write_once Reference.fhe one_submission
              write_once_history 1 Hi) as (_ & _ & _ & Hone).
  destruct Hone as (Hpre & Hpost & _); [vm_compute; reflexivity|].
  exact (conj Hpre Hpost).
Defined.

(** The bound [i ≤ dataCount s] is needed: [requestEnergyDataDecryption]
    does not look at the counter, so where the oracle answers a request for
    an id not yet assigned, the callback reveals the record under that id,
    and the submission that later receives the id starts from a fresh,
    unrevealed record. *)
Lemma reveal_ahead_of_submission :
  dataCount revealed_ahead = 0 ∧
  isRevealed (mload (decryptedData revealed_ahead) 1) = true ∧
  dataCount (transact Reference.fhe revealed_ahead late_submission) = 1 ∧
  mload (decryptedData (transact Reference.fhe revealed_ahead late_submission)) 1
    = zero.
Proof. run_scenario. Qed.

(** ** Submission ids *)

Section CiphertextStore.
Context (fhe : FHEVM).

Lemma submitted_ids_app (l1 l2 : list Event) :
  submitted_ids (l1 ++ l2) = submitted_ids l1 ++ submitted_ids l2.
Proof.
  induction l1 as [|e l1 IH]; simpl; [done|]. destruct e; simpl; by rewrite ?IH.
Qed.

(** A transaction either announces no submission and keeps the counter, or
    announces the id one above the counter and moves the counter to it. *)
Lemma transact_submitted (s : Storage) (c : Ctx * Call) :
  (submitted_ids (emitted fhe s c) = [] ∧
   dataCount (transact fhe s c) = dataCount s) ∨
  (submitted_ids (emitted fhe s c) = [dataCount s + 1] ∧
   dataCount (transact fhe s c) = dataCount s + 1).
Proof.
  destruct c as [ctx [u t l|o d|r ct p|d|k|o k|r ct p]];
    unfold transact, emitted; simpl.
  - rewrite submit_effect. simpl.
    destruct (dataCount s + 1 <=? MAX_UINT256); simpl; auto.
  - rewrite request_effect. simpl. left.
    destruct (isRevealed _); [done|]. by destruct (o _ _).
  - left.
    destruct (decrypt_cases fhe ctx r ct p s)
      as [(_ & Hs & He)|(_ & He & r0 & r2 & Hs)];
      unfold transact, emitted in Hs, He; simpl in Hs, He; rewrite He.
    + by rewrite Hs.
    + split; [done|]. by apply revealed_dataCount in Hs.
  - by left.
  - by left.
  - rewrite requestSum_effect. simpl. left.
    destruct (FHE_isInitialized _); [|done]. by destruct (o _ _).
  - rewrite decryptSum_effect. left.
    destruct (getSystemFromHash_loop _ _ _); [|done].
    destruct (FHE_checkSignatures _ _ _ _); [|done].
    by destruct (abi_decode_uint32 _ _).
Qed.

Lemma run_dataCount (s : Storage) (l : list (Ctx * Call)) :
  dataCount s ≤ dataCount (run fhe s l).
Proof.
  revert s. induction l as [|c l IH]; intros s; simpl; [lia|].
  pose proof (transact_dataCount fhe s c). specialize (IH (transact fhe s c)). lia.
Qed.

Lemma submitted_ids_from (s : Storage) (l : list (Ctx * Call)) :
  submitted_ids (logs fhe s l) =
    seqZ (dataCount s + 1) (dataCount (run fhe s l) - dataCount s).
Proof.
  revert s. induction l as [|c l IH]; intros s; simpl.
  - by rewrite Z.sub_diag.
  - rewrite submitted_ids_app, IH.
    pose proof (run_dataCount (transact fhe s c) l) as Hle.
    destruct (transact_submitted s c) as [[-> Hc]|[-> Hc]]; rewrite Hc in *.
    + done.
    + rewrite (seqZ_cons (dataCount s + 1)) by lia. simpl.
      do 2 f_equal; lia.
Qed.

(** A transaction that is not a successful submission announces no id and
    keeps the counter; a successful submission announces the id one above
    the counter and moves the counter to it. *)
Lemma transact_submits (s : Storage) (c : Ctx * Call) :
  if submits fhe s c
  then submitted_ids (emitted fhe s c) = [dataCount s + 1] ∧
       dataCount (transact fhe s c) = dataCount s + 1
  else submitted_ids (emitted fhe s c) = [] ∧
       dataCount (transact fhe s c) = dataCount s.
Proof.
  destruct c as [ctx [u t l|o d|r ct p|d|k|o k|r ct p]];
    unfold submits, succeeds; cbn [snd fst dispatch].
  - unfold transact, emitted. simpl. rewrite submit_effect. simpl.
    by destruct (dataCount s + 1 <=? MAX_UINT256).
  - unfold transact, emitted. simpl. rewrite request_effect. simpl.
    destruct (isRevealed _); [done|]. by destruct (o _ _).
  - destruct (decrypt_cases fhe ctx r ct p s)
      as [(_ & Hs & He)|(_ & He & r0 & r2 & Hs)]; rewrite He.
    + by rewrite Hs.
    + split; [done|]. by apply revealed_dataCount in Hs.
  - done.
  - done.
  - unfold transact, emitted. simpl. rewrite requestSum_effect. simpl.
    destruct (FHE_isInitialized _); [|done]. by destruct (o _ _).
  - destruct (decryptSum_cases fhe ctx r ct p s) as [Hs [He|He]];
      rewrite He, Hs; done.
Qed.

Lemma submitted_ids_count (s : Storage) (l : list (Ctx * Call)) :
  submitted_ids (logs fhe s l) =
    seqZ (dataCount s + 1) (Z.of_nat (submit_count fhe s l)) ∧
  dataCount (run fhe s l) = dataCount s + Z.of_nat (submit_count fhe s l).
Proof.
  revert s. induction l as [|c l IH]; intros s; simpl.
  - split; [done|lia].
  - destruct (IH (transact fhe s c)) as [IH1 IH2].
    pose proof (transact_submits s c) as Hc.
    rewrite submitted_ids_app, IH1, IH2.
    destruct (submits fhe s c); destruct Hc as [-> ->].
    + split; [|lia].
      rewrite (seqZ_cons (dataCount s + 1)) by lia. simpl. do 2 f_equal; lia.
    + split; [done|lia].
Qed.

(** C6. Whatever the history run on the freshly deployed contract --
    submissions interleaved with requests, callbacks, reads and failed calls
    -- its successful submissions are announced with the ids 1, 2, 3, ... in
    this order, one id per successful submission: the first gets 1, each
    next one the previous plus one, none is skipped and none is used twice;
    the counter is their number. A further submission succeeds as long as
    the counter is below the largest [uint256], and it is announced and
    stored under the id one above the counter. *)
Theorem submission_ids_sequential (l : list (Ctx * Call)) :
  let s := run fhe deployed l in
  submitted_ids (logs fhe deployed l) =
    seqZ 1 (Z.of_nat (submit_count fhe deployed l)) ∧
  dataCount s = Z.of_nat (submit_count fhe deployed l) ∧
  ∀ ctx u t h,
    dataCount s < MAX_UINT256 →
    let c := (ctx, SubmitEncryptedEnergyData u t h) in
    emitted fhe s c = [EnergyDataSubmitted (dataCount s + 1) (block_timestamp ctx)] ∧
    dataCount (transact fhe s c) = dataCount s + 1 ∧
    id (mload (encryptedData (transact fhe s c)) (dataCount s + 1)) = dataCount s + 1.
Proof.
  intros s. destruct (submitted_ids_count deployed l) as [Hids Hcount].
  split; [exact Hids|]. split; [exact Hcount|].
  intros ctx u t h Hlt c. unfold c, emitted, transact. simpl.
  rewrite submit_effect. cbv zeta.
  assert ((dataCount s + 1 <=? MAX_UINT256) = true) as -> by (apply Z.leb_le; lia).
  simpl. by rewrite mload_mstore_eq.
Qed.

End CiphertextStore.

Lemma submission_ids_sequential_witness :
  submitted_ids (logs Reference.fhe deployed three_readings) =
    seqZ 1 (Z.of_nat (submit_count Reference.fhe deployed three_readings)) ∧
  dataCount (run Reference.fhe deployed three_readings) =
    Z.of_nat (submit_count Reference.fhe deployed three_readings).
Proof.
  destruct (submission_ids_sequential Reference.fhe three_readings) as (Hids & Hc & _).
  exact (conj Hids Hc).
Defined.

Lemma three_readings_ids :
  submit_count Reference.fhe deployed three_readings = 3%nat ∧
  submitted_ids (logs Reference.fhe deployed three_readings) = [1; 2; 3].
Proof. run_scenario. Qed.

(** ** The reveal callback *)

Section RevealCallback.
Context (fhe : FHEVM).

(** C4. When the request id is mapped and its target is not yet revealed but
    the proof does not verify, [decryptEnergyData] reverts with
    [InvalidProof]; the transaction leaves the whole storage as it was -- the
    target record, the accumulator, the key registry, the mappings -- and
    emits nothing. *)
Theorem invalid_proof_changes_nothing (ctx : Ctx) (s : Storage)
    (requestId : uint256) (cleartexts proof : bytes) :
  mload (requestToDataId s) requestId ≠ 0 →
  isRevealed (mload (decryptedData s) (mload (requestToDataId s) requestId)) = false →
  FHE_checkSignatures fhe requestId cleartexts proof = false →
  decryptEnergyData fhe ctx requestId cleartexts proof s = inl InvalidProof ∧
  transact fhe s (ctx, DecryptEnergyData requestId cleartexts proof) = s ∧
  emitted fhe s (ctx, DecryptEnergyData requestId cleartexts proof) = [].
Proof.
  intros Hmapped%Z.eqb_neq Hsealed Hproof.
  assert (decryptEnergyData fhe ctx requestId cleartexts proof s = inl InvalidProof) as E.
  { rewrite decrypt_effect. simpl. by rewrite Hmapped, Hsealed, Hproof. }
  unfold transact, emitted. simpl. by rewrite E.
Qed.

End RevealCallback.

Lemma invalid_proof_changes_nothing_witness :
  decryptEnergyData Reference.fhe alice 0 answer_40_50_60 tampered_proof one_requested
    = inl InvalidProof ∧
  transact Reference.fhe one_requested
    (alice, DecryptEnergyData 0 answer_40_50_60 tampered_proof) = one_requested ∧
  emitted Reference.fhe one_requested
    (alice, DecryptEnergyData 0 answer_40_50_60 tampered_proof) = [].
Proof.
  apply (invalid_proof_changes_nothing Reference.fhe alice one_requested 0
           answer_40_50_60 tampered_proof).
  - vm_compute. discriminate.
  - vm_compute. reflexivity.
  - vm_compute. reflexivity.
Defined.

(** ** Unknown request ids *)

Section UnknownRequests.
Context (fhe : FHEVM).

(** Only a request that the oracle answers with [r] writes the mapping at [r]. *)
Lemma transact_requestToDataId (s : Storage) (c : Ctx * Call) (r : uint256) :
  records_reveal_request fhe s c r = false →
  records_sum_request fhe s c r = false →
  mload (requestToDataId (transact fhe s c)) r = mload (requestToDataId s) r.
Proof.
  destruct c as [ctx [u t l|o d|q ct p|d|k|o k|q ct p]];
    unfold records_reveal_request, records_sum_request, succeeds, transact; simpl.
  - intros _ _. rewrite submit_effect. simpl.
    by destruct (dataCount s + 1 <=? MAX_UINT256).
  - rewrite request_effect. simpl. intros Hrec _.
    destruct (isRevealed _); [done|].
    destruct (o _ _) as [reqId|]; [|done]. simpl in *.
    apply bool_decide_eq_false in Hrec.
    apply mload_mstore_ne. congruence.
  - intros _ _.
    destruct (decrypt_cases fhe ctx q ct p s)
      as [(_ & Hs & _)|(_ & _ & r0 & r2 & Hs)];
      unfold transact in Hs; simpl in Hs.
    + by rewrite Hs.
    + by rewrite (revealed_requestToDataId _ _ _ _ _ _ Hs).
  - done.
  - done.
  - rewrite requestSum_effect. simpl. intros _ Hrec.
    destruct (FHE_isInitialized _); [|done].
    destruct (o _ _) as [reqId|]; [|done]. simpl in *.
    apply bool_decide_eq_false in Hrec.
    apply mload_mstore_ne. congruence.
  - intros _ _. rewrite decryptSum_effect.
    destruct (getSystemFromHash_loop _ _ _); [|done].
    destruct (FHE_checkSignatures _ _ _ _); [|done].
    by destruct (abi_decode_uint32 _ _).
Qed.

Lemma run_requestToDataId (s : Storage) (l : list (Ctx * Call)) (r : uint256) :
  ever fhe (λ s c, records_reveal_request fhe s c r) s l = false →
  ever fhe (λ s c, records_sum_request fhe s c r) s l = false →
  mload (requestToDataId (run fhe s l)) r = mload (requestToDataId s) r.
Proof.
  revert s. induction l as [|c l IH]; intros s; simpl; [done|].
  intros [H1 H2]%orb_false_iff [H3 H4]%orb_false_iff.
  rewrite IH by done. by apply transact_requestToDataId.
Qed.

(** C5, as the contract has it. After any history run on the freshly
    deployed contract, a request id that no successful request of either
    kind -- [requestEnergyDataDecryption] or [requestLoadSumDecryption] --
    has recorded is rejected by [decryptEnergyData] with "Invalid request",
    and the transaction changes nothing and emits nothing. *)
Theorem unrecorded_request_rejected (l : list (Ctx * Call)) (ctx : Ctx)
    (requestId : uint256) (cleartexts proof : bytes) :
  ever fhe (λ s c, records_reveal_request fhe s c requestId) deployed l = false →
  ever fhe (λ s c, records_sum_request fhe s c requestId) deployed l = false →
  let s := run fhe deployed l in
  decryptEnergyData fhe ctx requestId cleartexts proof s
    = inl (Require "Invalid request") ∧
  transact fhe s (ctx, DecryptEnergyData requestId cleartexts proof) = s ∧
  emitted fhe s (ctx, DecryptEnergyData requestId cleartexts proof) = [].
Proof.
  intros Hreveal Hsum s.
  assert (decryptEnergyData fhe ctx requestId cleartexts proof s
            = inl (Require "Invalid request")) as E.
  { rewrite decrypt_effect. simpl. subst s.
    rewrite run_requestToDataId by done. simpl. by rewrite mload_empty. }
  unfold transact, emitted. simpl. by rewrite E.
Qed.

End UnknownRequests.

Lemma unrecorded_request_rejected_witness :
  decryptEnergyData Reference.fhe alice 2 answer_40_50_60
      (Reference.sign 2 answer_40_50_60)
      (run Reference.fhe deployed sum_requested_history)
    = inl (Require "Invalid request").
Proof.
  apply (unrecorded_request_rejected Reference.fhe sum_requested_history alice 2
           answer_40_50_60 (Reference.sign 2 answer_40_50_60)).
  - vm_compute. reflexivity.
  - vm_compute. reflexivity.
Defined.

(** C5, as stated, fails on a request id recorded only by
    [requestLoadSumDecryption]: the one mapping holds the key hash under it,
    so [decryptEnergyData] takes the id for a known one. In the history
    below request id 1 was never recorded by a reveal request; a callback
    under it with a proof that does not verify is rejected with
    [InvalidProof], not "Invalid request", and one whose proof the oracle's
    check accepts succeeds and writes a reveal record under the key hash. *)
Lemma sum_request_id_not_unknown :
  let s := run Reference.fhe deployed sum_requested_history in
  ever Reference.fhe (λ s c, records_reveal_request Reference.fhe s c 1) deployed
       sum_requested_history = false ∧
  ever Reference.fhe (λ s c, records_sum_request Reference.fhe s c 1) deployed
       sum_requested_history = true ∧
  decryptEnergyData Reference.fhe alice 1 answer_40_50_60 tampered_proof s
    = inl InvalidProof ∧
  succeeds Reference.fhe s crossed_callback = true ∧
  mload (decryptedData (transact Reference.fhe s crossed_callback))
        (Reference.hash central_system)
    = {| tenantUsage := 1; systemLoad := 3; isRevealed := true |} ∧
  transact Reference.fhe s crossed_callback ≠ s.
Proof.
  repeat match goal with
         | |- _ ∧ _ => split
         | |- let _ := _ in _ => intro
         end; try (vm_compute; reflexivity).
  intros E. apply (f_equal (λ s, mload (decryptedData s) (Reference.hash central_system))) in E.
  vm_compute in E. discriminate.
Qed.

(** ** The sum callback *)

Section SumCallback.
Context (fhe : FHEVM).

(** C2, as the contract has it. [decryptLoadSum] succeeds exactly when the
    value mapped to the request id is the hash of a registered system key,
    the proof verifies and the clear text decodes; a failing proof is
    rejected with [InvalidProof]. Succeeding or not, it leaves the storage
    as it was: the decoded sum is not kept and no accumulator is marked, so
    a callback that succeeded once succeeds again when it is delivered a
    second time. *)
Theorem decryptLoadSum_keeps_nothing (ctx : Ctx) (s : Storage)
    (requestId : uint256) (cleartexts proof : bytes) :
  let c := (ctx, DecryptLoadSum requestId cleartexts proof) in
  transact fhe s c = s ∧
  succeeds fhe s c =
    bool_decide (is_Some (getSystemFromHash_loop fhe (systemList s)
                            (mload (requestToDataId s) requestId)))
    && FHE_checkSignatures fhe requestId cleartexts proof
    && bool_decide (is_Some (abi_decode_uint32 fhe cleartexts)) ∧
  (is_Some (getSystemFromHash_loop fhe (systemList s)
              (mload (requestToDataId s) requestId)) ∧
   FHE_checkSignatures fhe requestId cleartexts proof = false →
   decryptLoadSum fhe ctx requestId cleartexts proof s = inl InvalidProof) ∧
  succeeds fhe (transact fhe s c) c = succeeds fhe s c.
Proof.
  intros c.
  assert (transact fhe s c = s) as Hsame by apply decryptSum_cases.
  rewrite Hsame. unfold succeeds, c. simpl. rewrite decryptSum_effect.
  destruct (getSystemFromHash_loop _ _ _) as [k|];
    destruct (FHE_checkSignatures _ _ _ _);
    destruct (abi_decode_uint32 _ _) as [v|]; simpl;
    repeat split; try done; try (by intros [[? ?] ?]); try (by intros [? ?]).
Qed.

End SumCallback.

(** C2, as stated, fails: the answer to the sum request of "central_system"
    is accepted -- the request id is mapped, the key resolves, the proof
    verifies, the sum decodes -- and the storage after it is the storage
    before it, with no plaintext sum and no mark anywhere; delivered a
    second time, the same callback is accepted again. *)
Lemma sum_callback_stores_nothing :
  mload (requestToDataId sum_requested) 1 = Reference.hash central_system ∧
  succeeds Reference.fhe sum_requested sum_answer = true ∧
  transact Reference.fhe sum_requested sum_answer = sum_requested ∧
  succeeds Reference.fhe (transact Reference.fhe sum_requested sum_answer) sum_answer
    = true.
Proof. run_scenario. Qed.

(** ** Reveal requests *)

Section RevealRequests.
Context (fhe : FHEVM).

(** C3, as the contract has it. The only guard of
    [requestEnergyDataDecryption] is the revealed flag. After a first
    request for [dataId] has succeeded and before any callback, a second
    request for the same id is accepted as soon as the oracle answers it: it
    records the new request id for [dataId] and announces the request, and
    the first request id stays mapped to [dataId] as well, so that two
    requests are outstanding for one submission. *)
Theorem second_request_accepted (s : Storage) (ctx1 ctx2 : Ctx)
    (oracle1 oracle2 : Oracle) (dataId r1 r2 : uint256) :
  let e := mload (encryptedData s) dataId in
  let handles := [encryptedTenantUsage e; encryptedTimestamp e;
                  encryptedSystemLoad e] in
  isRevealed (mload (decryptedData s) dataId) = false →
  oracle1 handles decryptEnergyData_selector = Some r1 →
  oracle2 handles decryptEnergyData_selector = Some r2 →
  let s1 := transact fhe s (ctx1, RequestEnergyDataDecryption oracle1 dataId) in
  requestEnergyDataDecryption ctx2 oracle2 dataId s1 =
    inr (tt, set_requestToDataId r2 dataId s1, [DecryptionRequested dataId]) ∧
  mload (requestToDataId (set_requestToDataId r2 dataId s1)) r2 = dataId ∧
  mload (requestToDataId (set_requestToDataId r2 dataId s1)) r1 = dataId.
Proof.
  intros e handles Hsealed Ho1 Ho2 s1.
  assert (s1 = set_requestToDataId r1 dataId s) as ->.
  { subst s1. unfold transact. simpl. rewrite request_effect. simpl.
    fold e. fold handles. by rewrite Hsealed, Ho1. }
  rewrite request_effect. simpl. fold e. fold handles. rewrite Hsealed, Ho2.
  split; [done|]. rewrite !mload_mstore.
  split; repeat case_decide; done.
Qed.

End RevealRequests.

Lemma second_request_accepted_witness :
  requestEnergyDataDecryption bob (Reference.grants 1) 1 one_requested =
    inr (tt, set_requestToDataId 1 1 one_requested, [DecryptionRequested 1]).
Proof.
  apply (second_request_accepted Reference.fhe one_submission alice bob
           (Reference.grants 0) (Reference.grants 1) 1 0 1).
  - vm_compute. reflexivity.
  - reflexivity.
  - reflexivity.
Defined.

(** C3, as stated, fails: with one submission and its reveal requested under
    request id 0, no callback yet, a second request for the same id is not
    rejected; afterwards request ids 0 and 1 are both mapped to submission 1. *)
Lemma second_request_not_rejected :
  mload (requestToDataId one_requested) 0 = 1 ∧
  isRevealed (mload (decryptedData one_requested) 1) = false ∧
  succeeds Reference.fhe one_requested
    (bob, RequestEnergyDataDecryption (Reference.grants 1) 1) = true ∧
  let s2 := transact Reference.fhe one_requested
              (bob, RequestEnergyDataDecryption (Reference.grants 1) 1) in
  mload (requestToDataId s2) 0 = 1 ∧ mload (requestToDataId s2) 1 = 1.
Proof. run_scenario. Qed.

(** ** Reading and revealing the running sum *)

Section AggregatorReads.
Context (fhe : FHEVM).

Lemma revealed_encryptedLoadSum_ne (dataId : uint256) (r0 r2 : uint32)
    (s s' : Storage) (k : string) :
  revealed fhe dataId r0 r2 s = Some s' →
  k ≠ central_system →
  mload (encryptedLoadSum s') k = mload (encryptedLoadSum s) k.
Proof.
  intros H Hk.
  destruct (revealed_inv _ _ _ _ _ _ H) as (? & ? & _ & _ & _ & _ & _ & _ & _ & Hne).
  by apply Hne.
Qed.

(** The accumulator of [k] moves only in a successful [decryptEnergyData],
    and then only for "central_system". *)
Lemma transact_encryptedLoadSum (s : Storage) (c : Ctx * Call) (k : string) :
  k ≠ central_system ∨ accumulates fhe s c = false →
  mload (encryptedLoadSum (transact fhe s c)) k = mload (encryptedLoadSum s) k.
Proof.
  destruct c as [ctx [u t l|o d|q ct p|d|k'|o k'|q ct p]];
    unfold accumulates, transact; simpl.
  - intros _. rewrite submit_effect. simpl.
    by destruct (dataCount s + 1 <=? MAX_UINT256).
  - intros _. rewrite request_effect. simpl.
    destruct (isRevealed _); [done|]. by destruct (o _ _).
  - intros Hk.
    destruct (succeeds fhe s (ctx, DecryptEnergyData q ct p)) eqn:Hok.
    + destruct (decrypt_success _ _ _ _ _ _ Hok) as (r0 & r2 & _ & _ & _ & _ & Hs).
      unfold transact in Hs. simpl in Hs.
      destruct Hk as [Hk|]; [|done].
      by apply (revealed_encryptedLoadSum_ne _ _ _ _ _ _ Hs).
    + apply decrypt_failure in Hok. unfold transact in Hok. simpl in Hok.
      by rewrite Hok.
  - done.
  - done.
  - intros _. rewrite requestSum_effect. simpl.
    destruct (FHE_isInitialized _); [|done]. by destruct (o _ _).
  - intros _. rewrite decryptSum_effect.
    destruct (getSystemFromHash_loop _ _ _); [|done].
    destruct (FHE_checkSignatures _ _ _ _); [|done].
    by destruct (abi_decode_uint32 _ _).
Qed.

Lemma run_encryptedLoadSum (s : Storage) (l : list (Ctx * Call)) (k : string) :
  k ≠ central_system ∨ ever fhe (accumulates fhe) s l = false →
  mload (encryptedLoadSum (run fhe s l)) k = mload (encryptedLoadSum s) k.
Proof.
  revert s. induction l as [|c l IH]; intros s; simpl; [done|].
  intros Hk. rewrite IH, transact_encryptedLoadSum; [done| |].
  - destruct Hk as [Hk|[Hk _]%orb_false_iff]; auto.
  - destruct Hk as [Hk|[_ Hk]%orb_false_iff]; auto.
Qed.

(** C8, as the contract has it. After any history run on the freshly
    deployed contract, [getEncryptedLoadSum] never fails: it returns the
    stored handle and leaves the storage as it was. For a key that was never
    initialized -- any key but "central_system", and "central_system" too
    as long as no reveal callback has succeeded -- that handle is the zero
    (uninitialized) handle. [requestLoadSumDecryption] for a key whose
    handle is not initialized fails with "System not found". *)
Theorem uninitialized_sum_reads_zero (l : list (Ctx * Call)) (ctx : Ctx)
    (systemKey : string) :
  let s := run fhe deployed l in
  let h := mload (encryptedLoadSum s) systemKey in
  getEncryptedLoadSum ctx systemKey s = inr (h, s, []) ∧
  (systemKey ≠ central_system ∨ ever fhe (accumulates fhe) deployed l = false →
   h = 0) ∧
  (∀ oracle, FHE_isInitialized h = false →
     requestLoadSumDecryption fhe ctx oracle systemKey s
       = inl (Require "System not found")).
Proof.
  intros s h. split; [done|]. split.
  - intros Hk. subst h s. rewrite run_encryptedLoadSum by done.
    simpl. by rewrite mload_empty.
  - intros oracle Hinit. rewrite requestSum_effect. simpl. fold s h.
    by rewrite Hinit.
Qed.

End AggregatorReads.

(** C8, as stated, fails: on the freshly deployed contract no accumulator
    exists, and [getEncryptedLoadSum] returns the zero handle instead of
    failing; so it does for a key nobody ever contributed to after
    "central_system" has been fed. *)
Lemma getEncryptedLoadSum_never_fails :
  getEncryptedLoadSum alice central_system deployed = inr (0, deployed, []) ∧
  getEncryptedLoadSum alice "hvac_zone_2" sum_requested = inr (0, sum_requested, []).
Proof. run_scenario. Qed.

(** ** Reading a reveal record *)

Section RevealReads.
Context (fhe : FHEVM).

(** A record that is all zero stays so through every transaction that does
    not reveal it, whether or not its id has been assigned yet. *)
Lemma transact_zero_record (s : Storage) (c : Ctx * Call) (i : uint256) :
  reveals fhe s c i = false →
  mload (decryptedData s) i = zero →
  mload (decryptedData (transact fhe s c)) i = zero.
Proof.
  destruct c as [ctx [u t l|o d|r ct p|d|k|o k|r ct p]];
    unfold reveals, transact; simpl.
  - intros _ Hz. rewrite submit_effect. simpl.
    destruct (dataCount s + 1 <=? MAX_UINT256); [|done]. simpl.
    rewrite mload_mstore. by case_decide.
  - intros _. rewrite request_effect. simpl.
    destruct (isRevealed _); [done|]. by destruct (o _ _).
  - intros Hrev Hz.
    destruct (succeeds fhe s (ctx, DecryptEnergyData r ct p)) eqn:Hok.
    + destruct (decrypt_success _ _ _ _ _ _ Hok) as (r0 & r2 & _ & _ & _ & _ & Hs).
      unfold transact in Hs. simpl in Hs.
      rewrite (revealed_decryptedData _ _ _ _ _ _ Hs).
      rewrite mload_mstore_ne; [done|]. simpl in Hrev. by apply Z.eqb_neq.
    + apply decrypt_failure in Hok. unfold transact in Hok. simpl in Hok.
      by rewrite Hok.
  - done.
  - done.
  - intros _. rewrite requestSum_effect. simpl.
    destruct (FHE_isInitialized _); [|done]. by destruct (o _ _).
  - intros _. rewrite decryptSum_effect.
    destruct (getSystemFromHash_loop _ _ _); [|done].
    destruct (FHE_checkSignatures _ _ _ _); [|done].
    by destruct (abi_decode_uint32 _ _).
Qed.

Lemma run_zero_record (s : Storage) (l : list (Ctx * Call)) (i : uint256) :
  reveal_count fhe s l i = 0%nat →
  mload (decryptedData s) i = zero →
  mload (decryptedData (run fhe s l)) i = zero.
Proof.
  revert s. induction l as [|c l IH]; intros s; simpl; [done|].
  destruct (reveals fhe s c i) eqn:Hrev; [done|]. simpl. intros Hc Hz.
  apply IH; [done|]. by apply transact_zero_record.
Qed.

(** No callback is ever applied to id 0. *)
Lemma reveals_zero (s : Storage) (c : Ctx * Call) : reveals fhe s c 0 = false.
Proof.
  destruct c as [ctx [u t l|o d|r ct p|d|k|o k|r ct p]]; unfold reveals; simpl;
    try done.
  destruct (succeeds fhe s (ctx, DecryptEnergyData r ct p)) eqn:Hok; [|done].
  destruct (decrypt_success _ _ _ _ _ _ Hok) as (r0 & r2 & Hne & _).
  simpl in *. by apply Z.eqb_neq.
Qed.

Lemma reveal_count_zero (s : Storage) (l : list (Ctx * Call)) :
  reveal_count fhe s l 0 = 0%nat.
Proof.
  revert s. induction l as [|c l IH]; intros s; simpl; [done|].
  by rewrite reveals_zero, IH.
Qed.

(** C9, as the contract has it. After any history run on the freshly
    deployed contract, [getDecryptedEnergyData] never fails, for any id: it
    returns the three fields of the stored record and leaves the storage as
    it was. For every id that no successful callback has revealed -- an
    existing submission not yet decrypted, but id 0 and ids beyond the
    counter just as well -- the fields are usage 0, load 0 and revealed
    false; id 0 is never revealed. *)
Theorem unrevealed_record_reads_zero (l : list (Ctx * Call)) (ctx : Ctx)
    (dataId : uint256) :
  let s := run fhe deployed l in
  let d := mload (decryptedData s) dataId in
  getDecryptedEnergyData ctx dataId s =
    inr ((tenantUsage d, systemLoad d, isRevealed d), s, []) ∧
  (reveal_count fhe deployed l dataId = 0%nat →
   tenantUsage d = 0 ∧ systemLoad d = 0 ∧ isRevealed d = false) ∧
  (dataId = 0 → d = zero).
Proof.
  intros s d. split; [done|].
  assert (reveal_count fhe deployed l dataId = 0%nat → d = zero) as Hz.
  { intros Hc. subst d s. apply run_zero_record; [done|]. simpl. apply mload_empty. }
  split.
  - intros Hc. by rewrite (Hz Hc).
  - intros ->. apply Hz, reveal_count_zero.
Qed.

End RevealReads.

(** C9, as stated, fails: no failure is reported for id 0 or for an id
    beyond the counter; both read as a zero record. *)
Lemma getDecryptedEnergyData_never_fails :
  dataCount one_submission = 1 ∧
  getDecryptedEnergyData alice 0 one_submission
    = inr ((0, 0, false), one_submission, []) ∧
  getDecryptedEnergyData alice 2 one_submission
    = inr ((0, 0, false), one_submission, []).
Proof. run_scenario. Qed.

(** ** Who may request a reveal *)

(** C10. [onlyTenant] runs the body it guards as it is, and
    [requestEnergyDataDecryption] gives the same outcome -- the same revert
    or the same storage and events -- whoever the caller is: for every id,
    every storage and every answer of the oracle, two call contexts cannot
    be told apart. In particular any caller succeeds on an unrevealed id that
    the oracle answers. *)
Theorem request_ignores_caller (ctx1 ctx2 : Ctx) (oracle : Oracle)
    (dataId : uint256) (s : Storage) :
  (∀ (A : Type) (body : Tx A), onlyTenant ctx1 dataId body = body) ∧
  requestEnergyDataDecryption ctx1 oracle dataId s =
    requestEnergyDataDecryption ctx2 oracle dataId s ∧
  (∀ reqId,
     isRevealed (mload (decryptedData s) dataId) = false →
     oracle [encryptedTenantUsage (mload (encryptedData s) dataId);
             encryptedTimestamp (mload (encryptedData s) dataId);
             encryptedSystemLoad (mload (encryptedData s) dataId)]
       decryptEnergyData_selector = Some reqId →
     requestEnergyDataDecryption ctx1 oracle dataId s =
       inr (tt, set_requestToDataId reqId dataId s, [DecryptionRequested dataId])).
Proof.
  split; [done|]. split; [by rewrite !request_effect|].
  intros reqId Hsealed Ho. rewrite request_effect. simpl. by rewrite Hsealed, Ho.
Qed.

(** Bob asks for the reveal of the reading Alice submitted. *)
Lemma bob_requests_alice_reading :
  succeeds Reference.fhe one_submission
    (bob, RequestEnergyDataDecryption (Reference.grants 0) 1) = true.
Proof. run_scenario. Qed.

(** ** The accumulator *)

Section Aggregator.
Context (fhe : FHEVM) (decrypt : euint32 → uint32).

(** What makes [decrypt] the decryption of the scheme behind [fhe]: where
    the coprocessor answers, the trivial encryption of a [uint32] decrypts
    to it, and [FHE.add] adds modulo 2^32 underneath and returns an
    initialized handle; [abi.decode] yields [uint32] values. Nothing is
    assumed on when the coprocessor answers. *)
Hypothesis decrypt_asEuint32 :
  ∀ v h, 0 ≤ v ≤ MAX_UINT32 → FHE_asEuint32 fhe v = Some h → decrypt h = v.
Hypothesis decrypt_add :
  ∀ a b h, FHE_add fhe a b = Some h →
           decrypt h = (decrypt a + decrypt b) mod 2 ^ 32.
Hypothesis add_initialized :
  ∀ a b h, FHE_add fhe a b = Some h → FHE_isInitialized h = true.
Hypothesis decode_range :
  ∀ ct l, abi_decode_uint32_array fhe ct = Some l →
          Forall (λ v, 0 ≤ v ≤ MAX_UINT32) l.

Lemma carried_range (c : Ctx * Call) (d : DecryptedEnergyData) :
  carried fhe c = Some d → 0 ≤ systemLoad d ≤ MAX_UINT32.
Proof.
  unfold carried. destruct (snd c) as [| |r ct p| | | |]; try done.
  destruct (abi_decode_uint32_array fhe ct) as [results|] eqn:Hdec; [|done].
  destruct (results !! 0%nat) as [r0|]; [|done].
  destruct (results !! 2%nat) as [r2|] eqn:H2; [|done].
  intros [= <-]. simpl.
  apply decode_range in Hdec. by apply (Forall_lookup_1 _ _ _ _ Hdec H2).
Qed.

(** One successful callback adds its load to the clear sum, modulo 2^32. *)
Lemma accumulate_step (s : Storage) (c : Ctx * Call) :
  accumulates fhe s c = true →
  FHE_isInitialized (central_sum (transact fhe s c)) = true ∧
  decrypt (central_sum (transact fhe s c)) =
    (clear_sum decrypt s + revealed_load fhe c) mod 2 ^ 32.
Proof.
  destruct c as [ctx [u t l|o d|r ct p|d|k|o k|r ct p]];
    unfold accumulates; simpl; try done.
  intros Hok.
  destruct (decrypt_success _ _ _ _ _ _ Hok) as (r0 & r2 & _ & _ & _ & Hc & Hs).
  pose proof (carried_range _ _ Hc) as Hr. simpl in Hr.
  unfold revealed_load. rewrite Hc. simpl.
  destruct (revealed_inv _ _ _ _ _ _ Hs)
    as (load & total & Hload & Hadd & _ & _ & _ & _ & Hsum & _).
  unfold clear_sum, central_sum. rewrite Hsum.
  destruct (FHE_isInitialized (mload (encryptedLoadSum s) central_system)).
  - destruct Hadd as [Hadd _]. split; [by eapply add_initialized|].
    by rewrite (decrypt_add _ _ _ Hadd), (decrypt_asEuint32 _ _ Hr Hload).
  - destruct Hadd as (zero & Hzero & Hadd & _). split; [by eapply add_initialized|].
    rewrite (decrypt_add _ _ _ Hadd), (decrypt_asEuint32 _ _ Hr Hload).
    rewrite (decrypt_asEuint32 0 zero); [done| |done]. unfold MAX_UINT32. lia.
Qed.

Lemma accumulate_run (s : Storage) (c : Ctx * Call) (l : list (Ctx * Call)) :
  every fhe (accumulates fhe) s (c :: l) = true →
  FHE_isInitialized (central_sum (run fhe s (c :: l))) = true ∧
  decrypt (central_sum (run fhe s (c :: l))) =
    (clear_sum decrypt s + sum_of_loads fhe (c :: l)) mod 2 ^ 32.
Proof.
  revert s c. induction l as [|c' l IH]; intros s c.
  - simpl. rewrite andb_true_r. intros Hc.
    destruct (accumulate_step s c Hc) as [Hi Hd]. split; [done|].
    by rewrite Hd, Z.add_0_r.
  - intros [Hc Hl]%andb_true_iff.
    destruct (accumulate_step s c Hc) as [Hi Hd].
    destruct (IH _ _ Hl) as [Hi' Hd']. split; [done|].
    change (run fhe s (c :: c' :: l)) with (run fhe (transact fhe s c) (c' :: l)).
    rewrite Hd'. unfold clear_sum at 1. rewrite Hi, Hd.
    change (sum_of_loads fhe (c :: c' :: l))
      with (revealed_load fhe c + sum_of_loads fhe (c' :: l)).
    rewrite Zplus_mod_idemp_l. f_equal. lia.
Qed.

Lemma sum_of_loads_Permutation (l l' : list (Ctx * Call)) :
  l ≡ₚ l' → sum_of_loads fhe l = sum_of_loads fhe l'.
Proof.
  induction 1 as [|c l l' _ IH|c1 c2 l|l1 l2 l3 _ IH1 _ IH2]; simpl.
  - done.
  - by rewrite IH.
  - lia.
  - congruence.
Qed.

(** C7. Take any storage and a set of reveal callbacks, listed in two
    orders. If the callbacks all succeed when processed in the first order,
    and all succeed when processed in the second, then after either order
    the handle that [getEncryptedLoadSum("central_system")] returns decrypts
    to the same value: the clear sum held before, plus the loads the
    callbacks revealed, taken modulo 2^32. Whether a callback succeeds is
    left to the coprocessor, which may refuse the addition. *)
Theorem accumulation_order_independent (s : Storage) (l l' : list (Ctx * Call)) :
  l ≡ₚ l' →
  every fhe (accumulates fhe) s l = true →
  every fhe (accumulates fhe) s l' = true →
  l ≠ [] →
  decrypt (central_sum (run fhe s l)) =
    (clear_sum decrypt s + sum_of_loads fhe l) mod 2 ^ 32 ∧
  decrypt (central_sum (run fhe s l')) =
    (clear_sum decrypt s + sum_of_loads fhe l) mod 2 ^ 32.
Proof.
  intros Hp Hl Hl' Hne.
  destruct l as [|c l]; [done|].
  destruct l' as [|c' l']; [by apply Permutation_nil_r in Hp|].
  split.
  - by apply accumulate_run.
  - rewrite (sum_of_loads_Permutation _ _ Hp). by apply accumulate_run.
Qed.

End Aggregator.

(** The reference environment is an instance of these assumptions. *)

Lemma Reference_decrypt_asEuint32 (v : uint32) (h : euint32) :
  0 ≤ v ≤ MAX_UINT32 → Reference.asEuint32 v = Some h → Reference.decrypt h = v.
Proof.
  unfold Reference.decrypt, Reference.asEuint32, Reference.TAG, MAX_UINT32.
  intros Hv [= <-]. rewrite (Z.mod_small v) by lia.
  rewrite <- (Z.mul_1_l (2 ^ 32)) at 1. rewrite Z.add_comm, Z_mod_plus_full.
  apply Z.mod_small. lia.
Qed.

Lemma Reference_decrypt_add (a b h : euint32) :
  Reference.add a b = Some h →
  Reference.decrypt h = (Reference.decrypt a + Reference.decrypt b) mod 2 ^ 32.
Proof.
  unfold Reference.add, Reference.TAG. intros [= <-]. unfold Reference.decrypt at 1.
  rewrite <- (Z.mul_1_l (2 ^ 32)) at 1. rewrite Z.add_comm, Z_mod_plus_full.
  apply Z.mod_mod. lia.
Qed.

Lemma Reference_add_initialized (a b h : euint32) :
  Reference.add a b = Some h → FHE_isInitialized h = true.
Proof.
  unfold FHE_isInitialized, Reference.add, Reference.TAG. intros [= <-].
  apply negb_true_iff, Z.eqb_neq.
  pose proof (Z.mod_pos_bound (Reference.decrypt a + Reference.decrypt b) (2 ^ 32)).
  lia.
Qed.

Lemma Reference_word_nonneg (bs : bytes) : 0 ≤ Reference.word bs.
Proof.
  unfold Reference.word.
  assert (∀ acc, 0 ≤ acc →
            0 ≤ fold_left (λ acc b, acc * 256 + Z.of_N (Byte.to_N b)) bs acc) as H.
  { induction bs as [|b bs IH]; intros z Hz; simpl; [done|]. apply IH. lia. }
  by apply H.
Qed.

Lemma Reference_words_nonneg (n : nat) (bs : bytes) :
  Forall (λ w, 0 ≤ w) (Reference.words n bs).
Proof.
  revert bs. induction n as [|n IH]; intros bs; simpl; constructor.
  - apply Reference_word_nonneg.
  - apply IH.
Qed.

Lemma Reference_decode_range (ct : bytes) (l : list uint32) :
  Reference.decode_uint32_array ct = Some l →
  Forall (λ v, 0 ≤ v ≤ MAX_UINT32) l.
Proof.
  unfold Reference.decode_uint32_array. cbv zeta.
  destruct (_ && _); [|done]. destruct (_ <=? _); [|done].
  destruct (forallb _ _) eqn:E; [|done]. intros [= <-].
  rewrite forallb_forall in E.
  apply Forall_forall. intros w Hw. split.
  - pose proof (Reference_words_nonneg
                  (Z.to_nat (Reference.word
                     (take 32 (drop (Z.to_nat (Reference.word (take 32 ct))) ct))))
                  (drop (Z.to_nat (Reference.word (take 32 ct)) + 32) ct)) as H.
    rewrite Forall_forall in H. by apply H.
  - apply Z.leb_le, E. by apply list_elem_of_In.
Qed.

Lemma accumulation_order_independent_witness :
  Reference.decrypt (central_sum (run Reference.fhe two_requested [reveal_A; reveal_B]))
    = (clear_sum Reference.decrypt two_requested
       + sum_of_loads Reference.fhe [reveal_A; reveal_B]) mod 2 ^ 32 ∧
  Reference.decrypt (central_sum (run Reference.fhe two_requested [reveal_B; reveal_A]))
    = (clear_sum Reference.decrypt two_requested
       + sum_of_loads Reference.fhe [reveal_A; reveal_B]) mod 2 ^ 32.
Proof.
  apply (accumulation_order_independent Reference.fhe Reference.decrypt
           Reference_decrypt_asEuint32 Reference_decrypt_add
           Reference_add_initialized Reference_decode_range
           two_requested [reveal_A; reveal_B] [reveal_B; reveal_A]).
  - apply perm_swap.
  - vm_compute. reflexivity.
  - vm_compute. reflexivity.
  - discriminate.
Defined.

(** Where the coprocessor accepts every addition, as the reference one does:
    loads 10 and 20 revealed in either order leave a sum that decrypts to
    30, out of an accumulator that did not exist before. *)
Lemma loads_10_20_either_order :
  central_sum two_requested = 0 ∧
  Reference.decrypt (central_sum (run Reference.fhe two_requested [reveal_A; reveal_B]))
    = 30 ∧
  Reference.decrypt (central_sum (run Reference.fhe two_requested [reveal_B; reveal_A]))
    = 30.
Proof. run_scenario. Qed.

(** Under the same proviso, three readings with loads 5, 7 and 9, revealed
    in arrival order: the sum decrypts to 21 and each of the three records is
    revealed. *)
Lemma loads_5_7_9 :
  let s := run Reference.fhe deployed three_readings in
  (getEncryptedLoadSum alice central_system s = inr (central_sum s, s, [])) ∧
  Reference.decrypt (central_sum s) = 21 ∧
  isRevealed (mload (decryptedData s) 1) = true ∧
  isRevealed (mload (decryptedData s) 2) = true ∧
  isRevealed (mload (decryptedData s) 3) = true.
Proof. run_scenario. Qed.

(** Where the coprocessor guards its operands, the stored sum is refused:
    the contract never grants itself lasting access to the handle it
    stores, so the first reveal is accumulated and the next one reverts,
    leaving its record unrevealed and the sum at the first load. *)
Lemma second_reveal_refused_when_guarded :
  succeeds Reference.guarded two_requested reveal_A = true ∧
  decryptEnergyData Reference.guarded (fst reveal_B) 1
      (Reference.encode_uint32_array [2; 1700000000; 20])
      (Reference.sign 1 (Reference.encode_uint32_array [2; 1700000000; 20]))
      (transact Reference.guarded two_requested reveal_A)
    = inl CoprocessorRefused ∧
  isRevealed
    (mload (decryptedData (run Reference.guarded two_requested [reveal_A; reveal_B])) 2)
    = false ∧
  Reference.decrypt
    (central_sum (run Reference.guarded two_requested [reveal_A; reveal_B])) = 10.
Proof. run_scenario. Qed.

(** * Further properties of the contract *)

(** ** Stored submissions *)

Section Submissions.
Context (fhe : FHEVM).

Lemma revealed_encryptedData (dataId : uint256) (r0 r2 : uint32) (s s' : Storage) :
  revealed fhe dataId r0 r2 s = Some s' → encryptedData s' = encryptedData s.
Proof.
  intros H. by destruct (revealed_inv _ _ _ _ _ _ H) as (? & ? & ? & ? & ? & ? & ?).
Qed.

(** Only a submission writes the ciphertext store, and only under the id
    above the counter. *)
Lemma transact_encryptedData (s : Storage) (c : Ctx * Call) (i : uint256) :
  i ≠ dataCount s + 1 →
  mload (encryptedData (transact fhe s c)) i = mload (encryptedData s) i.
Proof.
  intros Hi. destruct c as [ctx [u t l|o d|r ct p|d|k|o k|r ct p]];
    unfold transact; simpl.
  - rewrite submit_effect. simpl.
    destruct (dataCount s + 1 <=? MAX_UINT256); [|done]. simpl.
    by apply mload_mstore_ne.
  - rewrite request_effect. simpl.
    destruct (isRevealed _); [done|]. by destruct (o _ _).
  - destruct (decrypt_cases fhe ctx r ct p s)
      as [(_ & Hs & _)|(_ & _ & r0 & r2 & Hs)];
      unfold transact in Hs; simpl in Hs.
    + by rewrite Hs.
    + by rewrite (revealed_encryptedData _ _ _ _ _ Hs).
  - done.
  - done.
  - rewrite requestSum_effect. simpl.
    destruct (FHE_isInitialized _); [|done]. by destruct (o _ _).
  - rewrite decryptSum_effect.
    destruct (getSystemFromHash_loop _ _ _); [|done].
    destruct (FHE_checkSignatures _ _ _ _); [|done].
    by destruct (abi_decode_uint32 _ _).
Qed.

Lemma run_encryptedData (s : Storage) (l : list (Ctx * Call)) (i : uint256) :
  1 ≤ i ≤ dataCount s →
  mload (encryptedData (run fhe s l)) i = mload (encryptedData s) i.
Proof.
  revert s. induction l as [|c l IH]; intros s Hi; simpl; [done|].
  pose proof (transact_dataCount fhe s c).
  rewrite IH by lia. apply transact_encryptedData. lia.
Qed.

(** X1. A stored submission never changes: for an id the counter has
    reached, the id, the three ciphertext handles and the timestamp read
    from [encryptedData] after any history are those read before it, and the
    id stays within the counter. *)
Theorem submission_immutable (s : Storage) (l : list (Ctx * Call)) (i : uint256) :
  1 ≤ i ≤ dataCount s →
  mload (encryptedData (run fhe s l)) i = mload (encryptedData s) i ∧
  1 ≤ i ≤ dataCount (run fhe s l).
Proof.
  intros Hi. split; [by apply run_encryptedData|].
  pose proof (run_dataCount fhe s l). lia.
Qed.

(** The shape of the ciphertext store: the counter is a [uint256], the
    entry of every assigned id carries that id, and no other entry is set. *)
Definition store_shaped (s : Storage) : Prop :=
  0 ≤ dataCount s ≤ MAX_UINT256 ∧
  ∀ i, (1 ≤ i ≤ dataCount s → id (mload (encryptedData s) i) = i) ∧
       (¬ (1 ≤ i ≤ dataCount s) → mload (encryptedData s) i = zero).

(** A transaction keeps the counter and the ciphertext store, unless it is
    a submission that succeeds. *)
Lemma transact_store_frame (s : Storage) (c : Ctx * Call) :
  (dataCount (transact fhe s c) = dataCount s ∧
   encryptedData (transact fhe s c) = encryptedData s ∧
   submitted_ids (emitted fhe s c) = []) ∨
  (∃ ctx u t l,
     c = (ctx, SubmitEncryptedEnergyData u t l) ∧
     dataCount s + 1 ≤ MAX_UINT256 ∧
     dataCount (transact fhe s c) = dataCount s + 1 ∧
     encryptedData (transact fhe s c) =
       mstore (dataCount s + 1)
         {| id := dataCount s + 1; encryptedTenantUsage := u;
            encryptedTimestamp := t; encryptedSystemLoad := l;
            timestamp := block_timestamp ctx |} (encryptedData s) ∧
     emitted fhe s c = [EnergyDataSubmitted (dataCount s + 1) (block_timestamp ctx)]).
Proof.
  destruct c as [ctx [u t l|o d|r ct p|d|k|o k|r ct p]];
    unfold transact, emitted; simpl.
  - rewrite submit_effect. simpl.
    destruct (dataCount s + 1 <=? MAX_UINT256) eqn:Hle; [|by left].
    right. exists ctx, u, t, l. apply Z.leb_le in Hle. done.
  - left. rewrite request_effect. simpl.
    destruct (isRevealed _); [done|]. by destruct (o _ _).
  - left.
    destruct (decrypt_cases fhe ctx r ct p s)
      as [(_ & Hs & He)|(_ & He & r0 & r2 & Hs)];
      unfold transact, emitted in Hs, He; simpl in Hs, He; rewrite He.
    + by rewrite Hs.
    + by rewrite (revealed_dataCount _ _ _ _ _ _ Hs),
                 (revealed_encryptedData _ _ _ _ _ Hs).
  - by left.
  - by left.
  - left. rewrite requestSum_effect. simpl.
    destruct (FHE_isInitialized _); [|done]. by destruct (o _ _).
  - left. rewrite decryptSum_effect.
    destruct (getSystemFromHash_loop _ _ _); [|done].
    destruct (FHE_checkSignatures _ _ _ _); [|done].
    by destruct (abi_decode_uint32 _ _).
Qed.

Lemma transact_store_shaped (s : Storage) (c : Ctx * Call) :
  store_shaped s → store_shaped (transact fhe s c).
Proof.
  intros [Hc Hs]. unfold store_shaped.
  destruct (transact_store_frame s c)
    as [(-> & -> & _)|(ctx & u & t & l & -> & Hle & -> & -> & _)]; [done|].
  split; [lia|]. intros i. rewrite mload_mstore.
  case_decide as Hi; simpl.
  - split; [done|lia].
  - destruct (Hs i) as [Hin Hout]. split; intros ?; [apply Hin|apply Hout]; lia.
Qed.

Lemma run_store_shaped (s : Storage) (l : list (Ctx * Call)) :
  store_shaped s → store_shaped (run fhe s l).
Proof.
  revert s. induction l as [|c l IH]; intros s Hs; simpl; [done|].
  by apply IH, transact_store_shaped.
Qed.

Lemma deployed_store_shaped : store_shaped deployed.
Proof.
  split; [simpl; unfold MAX_UINT256; lia|]. intros i. simpl. split; [lia|].
  intros _. apply mload_empty.
Qed.

(** X2. After any history on the freshly deployed contract the counter is
    within [uint256], the entry stored under each assigned id 1..dataCount
    carries that very id, and the entry of every other id -- zero, or above
    the counter -- is unset. *)
Theorem ciphertext_store_shape (l : list (Ctx * Call)) (i : uint256) :
  let s := run fhe deployed l in
  0 ≤ dataCount s ≤ MAX_UINT256 ∧
  (1 ≤ i ≤ dataCount s → id (mload (encryptedData s) i) = i) ∧
  (¬ (1 ≤ i ≤ dataCount s) → mload (encryptedData s) i = zero).
Proof.
  intros s. destruct (run_store_shaped deployed l deployed_store_shaped) as [Hc Hs].
  split; [done|]. apply Hs.
Qed.

(** X3. A submission is stored as announced: for every
    [EnergyDataSubmitted(i, t)] in the log of a history, the entry read from
    [encryptedData] under [i] at the end of the history has id [i] and
    timestamp [t]. *)
Theorem announced_submission_stored (s : Storage) (l : list (Ctx * Call))
    (i t : uint256) :
  0 ≤ dataCount s →
  EnergyDataSubmitted i t ∈ logs fhe s l →
  id (mload (encryptedData (run fhe s l)) i) = i ∧
  timestamp (mload (encryptedData (run fhe s l)) i) = t.
Proof.
  revert s. induction l as [|c l IH]; intros s Hc; simpl.
  - by intros ?%elem_of_nil.
  - pose proof (transact_dataCount fhe s c) as Hmono.
    intros [Hin|Hin]%elem_of_app; [|apply IH; [lia|done]].
    destruct (transact_store_frame s c)
      as [(_ & _ & Hnone)|(ctx & u & t' & l' & -> & Hle & Hn & Hed & Hev)].
    + exfalso. clear -Hin Hnone.
      induction (emitted fhe s c) as [|e log IHlog]; [by apply elem_of_nil in Hin|].
      apply elem_of_cons in Hin as [<-|Hin]; [done|].
      destruct e; simpl in Hnone; try done; by apply IHlog.
    + rewrite Hev in Hin. apply list_elem_of_singleton in Hin as [= -> ->].
      rewrite run_encryptedData by lia.
      by rewrite Hed, mload_mstore_eq.
Qed.

End Submissions.

Lemma submission_immutable_witness :
  mload (encryptedData (run Reference.fhe one_submission write_once_history)) 1
    = mload (encryptedData one_submission) 1 ∧
  1 ≤ 1 ≤ dataCount (run Reference.fhe one_submission write_once_history).
Proof.
  apply (submission_immutable Reference.fhe one_submission write_once_history 1).
  vm_compute. split; discriminate.
Defined.

Lemma announced_submission_stored_witness :
  id (mload (encryptedData (run Reference.fhe deployed three_readings)) 2) = 2 ∧
  timestamp (mload (encryptedData (run Reference.fhe deployed three_readings)) 2)
    = 1700000000.
Proof.
  apply (announced_submission_stored Reference.fhe deployed three_readings 2 1700000000).
  - vm_compute. discriminate.
  - apply list_elem_of_In. vm_compute. right. left. reflexivity.
Defined.

(** ** Rejected callbacks and requests *)

Section Rejections.
Context (fhe : FHEVM).

(** X4. A callback is applied once. After a successful [decryptEnergyData],
    every callback whose request id resolves to the same target -- the same
    request delivered again, or another request for that submission -- is
    rejected with "Already decrypted", and the transaction changes nothing. *)
Theorem duplicate_callback_rejected (s : Storage) (ctx ctx' : Ctx)
    (requestId requestId' : uint256) (cleartexts proof cleartexts' proof' : bytes) :
  succeeds fhe s (ctx, DecryptEnergyData requestId cleartexts proof) = true →
  mload (requestToDataId s) requestId' = mload (requestToDataId s) requestId →
  let s1 := transact fhe s (ctx, DecryptEnergyData requestId cleartexts proof) in
  decryptEnergyData fhe ctx' requestId' cleartexts' proof' s1
    = inl (Require "Already decrypted") ∧
  transact fhe s1 (ctx', DecryptEnergyData requestId' cleartexts' proof') = s1.
Proof.
  intros Hok Hsame s1.
  destruct (decrypt_success _ _ _ _ _ _ Hok) as (r0 & r2 & Hne & _ & _ & _ & Hs).
  simpl in Hne.
  assert (decryptEnergyData fhe ctx' requestId' cleartexts' proof' s1
            = inl (Require "Already decrypted")) as E.
  { simpl in Hs. fold s1 in Hs. rewrite decrypt_effect. cbv zeta.
    rewrite (revealed_requestToDataId _ _ _ _ _ _ Hs),
            (revealed_decryptedData _ _ _ _ _ _ Hs), Hsame.
    apply Z.eqb_neq in Hne. rewrite Hne. by rewrite mload_mstore_eq. }
  split; [done|]. unfold transact. simpl. by rewrite E.
Qed.

(** A revealed record of an existing submission stays as it is. *)
Lemma run_revealed_record (s : Storage) (l : list (Ctx * Call)) (i : uint256) :
  1 ≤ i ≤ dataCount s →
  isRevealed (mload (decryptedData s) i) = true →
  mload (decryptedData (run fhe s l)) i = mload (decryptedData s) i.
Proof.
  revert s. induction l as [|c l IH]; intros s Hi Hrev; simpl; [done|].
  pose proof (transact_dataCount fhe s c).
  assert (reveals fhe s c i = false) as Hno.
  { destruct (reveals fhe s c i) eqn:E; [|done].
    apply transact_reveals in E as (E & _). congruence. }
  pose proof (transact_decryptedData fhe s c i Hi Hno) as Hsame.
  rewrite IH; [done|lia|by rewrite Hsame].
Qed.

(** X5. Revealed is terminal. Once the record of an existing submission is
    revealed, then after any further history a reveal request for it is
    rejected with "Already decrypted", and so is every callback whose
    request id resolves to it. *)
Theorem revealed_is_terminal (s : Storage) (l : list (Ctx * Call)) (i : uint256)
    (ctx : Ctx) (oracle : Oracle) (requestId : uint256) (cleartexts proof : bytes) :
  1 ≤ i ≤ dataCount s →
  isRevealed (mload (decryptedData s) i) = true →
  let s' := run fhe s l in
  requestEnergyDataDecryption ctx oracle i s' = inl (Require "Already decrypted") ∧
  (mload (requestToDataId s') requestId = i →
   decryptEnergyData fhe ctx requestId cleartexts proof s'
     = inl (Require "Already decrypted")).
Proof.
  intros Hi Hrev s'.
  assert (isRevealed (mload (decryptedData s') i) = true) as Hrev'.
  { subst s'. by rewrite run_revealed_record. }
  split.
  - rewrite request_effect. simpl. by rewrite Hrev'.
  - intros Hmap. rewrite decrypt_effect. cbv zeta. rewrite Hmap, Hrev'.
    assert ((i =? 0) = false) as -> by (apply Z.eqb_neq; lia). done.
Qed.

(** X6. Clear texts that decode to fewer than three values make the callback
    revert with the out-of-bounds panic when it reads them, after the proof
    was accepted; nothing is written. *)
Theorem short_cleartexts_panic (s : Storage) (ctx : Ctx) (requestId : uint256)
    (cleartexts proof : bytes) (results : list uint32) :
  mload (requestToDataId s) requestId ≠ 0 →
  isRevealed (mload (decryptedData s) (mload (requestToDataId s) requestId)) = false →
  FHE_checkSignatures fhe requestId cleartexts proof = true →
  abi_decode_uint32_array fhe cleartexts = Some results →
  (length results < 3)%nat →
  decryptEnergyData fhe ctx requestId cleartexts proof s = inl (Panic 0x32) ∧
  transact fhe s (ctx, DecryptEnergyData requestId cleartexts proof) = s.
Proof.
  intros Hmapped%Z.eqb_neq Hsealed Hproof Hdec Hlen.
  assert (decryptEnergyData fhe ctx requestId cleartexts proof s = inl (Panic 0x32)) as E.
  { rewrite decrypt_effect. cbv zeta. rewrite Hmapped, Hsealed, Hproof, Hdec.
    destruct (results !! 0%nat); [|done].
    rewrite (lookup_ge_None_2 results 2) by lia. done. }
  split; [done|]. unfold transact. simpl. by rewrite E.
Qed.

(** X7. Id 0 can be requested but never revealed: a reveal request for id 0
    that the oracle answers succeeds and is announced, yet it leaves the
    request id unmapped, so the callback for it is rejected with "Invalid
    request". *)
Theorem zero_id_request_is_void (s : Storage) (ctx ctx' : Ctx) (oracle : Oracle)
    (requestId : uint256) (cleartexts proof : bytes) :
  let e := mload (encryptedData s) 0 in
  isRevealed (mload (decryptedData s) 0) = false →
  oracle [encryptedTenantUsage e; encryptedTimestamp e; encryptedSystemLoad e]
    decryptEnergyData_selector = Some requestId →
  let s1 := transact fhe s (ctx, RequestEnergyDataDecryption oracle 0) in
  emitted fhe s (ctx, RequestEnergyDataDecryption oracle 0) = [DecryptionRequested 0] ∧
  mload (requestToDataId s1) requestId = 0 ∧
  decryptEnergyData fhe ctx' requestId cleartexts proof s1
    = inl (Require "Invalid request").
Proof.
  intros e Hsealed Ho s1.
  assert (requestEnergyDataDecryption ctx oracle 0 s =
            inr (tt, set_requestToDataId requestId 0 s, [DecryptionRequested 0])) as E.
  { rewrite request_effect. simpl. fold e. by rewrite Hsealed, Ho. }
  assert (mload (requestToDataId s1) requestId = 0) as Hz.
  { subst s1. unfold transact. simpl. rewrite E. simpl. apply mload_mstore_eq. }
  split; [unfold emitted; simpl; by rewrite E|]. split; [done|].
  rewrite decrypt_effect. cbv zeta. by rewrite Hz.
Qed.

End Rejections.

Lemma duplicate_callback_rejected_witness :
  decryptEnergyData Reference.fhe bob 0 answer_40_50_60
      (Reference.sign 0 answer_40_50_60)
      (transact Reference.fhe one_requested (Reference.reveal 0 40 50 60))
    = inl (Require "Already decrypted").
Proof.
  apply (duplicate_callback_rejected Reference.fhe one_requested
           (Reference.tenant 0) bob 0 0 answer_40_50_60
           (Reference.sign 0 answer_40_50_60)).
  - vm_compute. reflexivity.
  - reflexivity.
Defined.

Lemma revealed_is_terminal_witness :
  requestEnergyDataDecryption bob (Reference.grants 3) 1
      (run Reference.fhe
         (transact Reference.fhe one_requested (Reference.reveal 0 40 50 60))
         [late_submission; (bob, RequestEnergyDataDecryption (Reference.grants 2) 2)])
    = inl (Require "Already decrypted").
Proof.
  refine (proj1 (revealed_is_terminal Reference.fhe
           (transact Reference.fhe one_requested (Reference.reveal 0 40 50 60))
           [late_submission; (bob, RequestEnergyDataDecryption (Reference.grants 2) 2)]
           1 bob (Reference.grants 3) 0 [] [] _ _)).
  - vm_compute. split; discriminate.
  - vm_compute. reflexivity.
Defined.

Lemma short_cleartexts_panic_witness :
  decryptEnergyData Reference.fhe alice 0 answer_40_50
      (Reference.sign 0 answer_40_50) one_requested
    = inl (Panic 0x32) ∧
  transact Reference.fhe one_requested
    (alice, DecryptEnergyData 0 answer_40_50 (Reference.sign 0 answer_40_50))
    = one_requested.
Proof.
  apply (short_cleartexts_panic Reference.fhe one_requested alice 0 answer_40_50
           (Reference.sign 0 answer_40_50) [40; 50]).
  - vm_compute. discriminate.
  - vm_compute. reflexivity.
  - vm_compute. reflexivity.
  - vm_compute. reflexivity.
  - simpl. lia.
Defined.

Lemma zero_id_request_is_void_witness :
  decryptEnergyData Reference.fhe bob 5 answer_40_50_60
      (Reference.sign 5 answer_40_50_60)
      (transact Reference.fhe one_submission
         (alice, RequestEnergyDataDecryption (Reference.grants 5) 0))
    = inl (Require "Invalid request").
Proof.
  apply (zero_id_request_is_void Reference.fhe one_submission alice bob
           (Reference.grants 5) 5 answer_40_50_60 (Reference.sign 5 answer_40_50_60)).
  - vm_compute. reflexivity.
  - reflexivity.
Defined.

(** ** The registry of system keys and the sum callback *)

Section Registry.
Context (fhe : FHEVM).

Lemma getSystemFromHash_loop_spec (l : list string) (h : uint256) :
  match getSystemFromHash_loop fhe l h with
  | Some k =>
      ∃ l1 l2, l = l1 ++ k :: l2 ∧ keccak256 fhe k = h ∧
               ∀ x, x ∈ l1 → keccak256 fhe x ≠ h
  | None => ∀ x, x ∈ l → keccak256 fhe x ≠ h
  end.
Proof.
  induction l as [|k l IH]; simpl.
  - by intros x ?%elem_of_nil.
  - unfold bytes32ToUint. destruct (keccak256 fhe k =? h) eqn:E.
    + apply Z.eqb_eq in E. exists [], l. split; [done|]. split; [done|].
      by intros x ?%elem_of_nil.
    + apply Z.eqb_neq in E. destruct (getSystemFromHash_loop fhe l h) as [k'|].
      * destruct IH as (l1 & l2 & -> & Hk & Hfirst). exists (k :: l1), l2.
        split; [done|]. split; [done|].
        intros x [->|Hx]%elem_of_cons; [done|by apply Hfirst].
      * intros x [->|Hx]%elem_of_cons; [done|by apply IH].
Qed.

(** X9. [getSystemFromHash] answers with the first registered key whose hash
    is the one asked for, leaving the storage alone, and reverts with
    "System not found" exactly when no registered key has that hash. *)
Theorem getSystemFromHash_first_match (h : uint256) (s : Storage) :
  match getSystemFromHash fhe h s with
  | inr (k, s', events) =>
      s' = s ∧ events = [] ∧
      ∃ l1 l2, systemList s = l1 ++ k :: l2 ∧ keccak256 fhe k = h ∧
               ∀ x, x ∈ l1 → keccak256 fhe x ≠ h
  | inl e =>
      e = Require "System not found" ∧
      ∀ x, x ∈ systemList s → keccak256 fhe x ≠ h
  end.
Proof.
  pose proof (getSystemFromHash_loop_spec (systemList s) h) as H.
  unfold getSystemFromHash, bind, sload, external, ret, revert.
  destruct (getSystemFromHash_loop fhe (systemList s) h) as [k|]; simpl; auto.
Qed.

Lemma revealed_systemList (dataId : uint256) (r0 r2 : uint32) (s s' : Storage) :
  revealed fhe dataId r0 r2 s = Some s' →
  systemList s' =
    if FHE_isInitialized (central_sum s) then systemList s
    else systemList s ++ [central_system].
Proof.
  intros H. unfold central_sum.
  destruct (revealed_inv _ _ _ _ _ _ H) as (load & total & _ & Hadd & _).
  destruct (FHE_isInitialized _); [by destruct Hadd|].
  by destruct Hadd as (? & _ & _ & ?).
Qed.

Lemma revealed_central_sum (dataId : uint256) (r0 r2 : uint32) (s s' : Storage) :
  revealed fhe dataId r0 r2 s = Some s' →
  ∃ a b, FHE_add fhe a b = Some (central_sum s').
Proof.
  intros H. unfold central_sum.
  destruct (revealed_inv _ _ _ _ _ _ H)
    as (load & total & _ & Hadd & _ & _ & _ & _ & -> & _).
  destruct (FHE_isInitialized _).
  - destruct Hadd as [Hadd _]. eauto.
  - destruct Hadd as (zero & _ & Hadd & _). eauto.
Qed.

(** Only a successful reveal callback touches the registry. *)
Lemma transact_systemList (s : Storage) (c : Ctx * Call) :
  accumulates fhe s c = false → systemList (transact fhe s c) = systemList s.
Proof.
  destruct c as [ctx [u t l|o d|r ct p|d|k|o k|r ct p]];
    unfold accumulates, transact; simpl.
  - intros _. rewrite submit_effect. simpl.
    by destruct (dataCount s + 1 <=? MAX_UINT256).
  - intros _. rewrite request_effect. simpl.
    destruct (isRevealed _); [done|]. by destruct (o _ _).
  - intros Hok. apply decrypt_failure in Hok. unfold transact in Hok.
    simpl in Hok. by rewrite Hok.
  - done.
  - done.
  - intros _. rewrite requestSum_effect. simpl.
    destruct (FHE_isInitialized _); [|done]. by destruct (o _ _).
  - intros _. rewrite decryptSum_effect.
    destruct (getSystemFromHash_loop _ _ _); [|done].
    destruct (FHE_checkSignatures _ _ _ _); [|done].
    by destruct (abi_decode_uint32 _ _).
Qed.

Lemma accumulates_transact (s : Storage) (c : Ctx * Call) :
  accumulates fhe s c = true →
  ∃ dataId r0 r2, revealed fhe dataId r0 r2 s = Some (transact fhe s c).
Proof.
  destruct c as [ctx [u t l|o d|r ct p|d|k|o k|r ct p]];
    unfold accumulates; simpl; try done.
  intros Hok.
  destruct (decrypt_success _ _ _ _ _ _ Hok) as (r0 & r2 & _ & _ & _ & _ & Hs).
  by eexists _, r0, r2.
Qed.

(** Whatever is registered along a history is "central_system", and it is
    registered by a reveal callback that succeeded. *)
Lemma run_systemList (s : Storage) (l : list (Ctx * Call)) (x : string) :
  x ∈ systemList (run fhe s l) →
  x ∈ systemList s ∨ (x = central_system ∧ ever fhe (accumulates fhe) s l = true).
Proof.
  revert s. induction l as [|c l IH]; intros s; simpl; [by left|].
  intros Hx. destruct (IH _ Hx) as [Hin|[-> Hev]].
  - destruct (accumulates fhe s c) eqn:Hacc.
    + destruct (accumulates_transact s c Hacc) as (d & r0 & r2 & E).
      rewrite (revealed_systemList _ _ _ _ _ E) in Hin.
      destruct (FHE_isInitialized _); [by left|].
      apply elem_of_app in Hin as [Hin|Hin%list_elem_of_singleton]; [by left|].
      right. by subst.
    + rewrite transact_systemList in Hin by done. by left.
  - right. split; [done|]. by rewrite Hev, orb_true_r.
Qed.

(** X10. The sum callback depends on the accumulator having been fed. On a
    history from deployment in which no reveal callback has succeeded, every
    [decryptLoadSum] reverts with "System not found", whatever its request
    id and proof; and a [decryptLoadSum] that succeeds was given a request id
    mapped to the hash of "central_system", with a proof that verifies. *)
Theorem sum_callback_needs_accumulator (l : list (Ctx * Call)) (ctx : Ctx)
    (requestId : uint256) (cleartexts proof : bytes) :
  let s := run fhe deployed l in
  (ever fhe (accumulates fhe) deployed l = false →
   decryptLoadSum fhe ctx requestId cleartexts proof s
     = inl (Require "System not found")) ∧
  (succeeds fhe s (ctx, DecryptLoadSum requestId cleartexts proof) = true →
   mload (requestToDataId s) requestId = keccak256 fhe central_system ∧
   FHE_checkSignatures fhe requestId cleartexts proof = true ∧
   ever fhe (accumulates fhe) deployed l = true).
Proof.
  intros s.
  pose proof (getSystemFromHash_loop_spec (systemList s)
                (mload (requestToDataId s) requestId)) as Hloop.
  assert (∀ x, x ∈ systemList s →
            x = central_system ∧ ever fhe (accumulates fhe) deployed l = true) as Hreg.
  { intros x Hx. apply run_systemList in Hx as [Hx|Hx]; [|done].
    simpl in Hx. by apply elem_of_nil in Hx. }
  split.
  - intros Hnone. rewrite decryptSum_effect. fold s.
    destruct (getSystemFromHash_loop _ _ _) as [k|]; [|done].
    destruct Hloop as (l1 & l2 & E & _).
    destruct (Hreg k) as [_ Hev]; [rewrite E; apply elem_of_app; right; apply elem_of_cons; by left|congruence].
  - unfold succeeds. simpl. rewrite decryptSum_effect. fold s.
    destruct (getSystemFromHash_loop _ _ _) as [k|]; [|done].
    destruct Hloop as (l1 & l2 & E & Hk & _).
    destruct (Hreg k) as [-> Hev]; [rewrite E; apply elem_of_app; right; apply elem_of_cons; by left|].
    destruct (FHE_checkSignatures _ _ _ _); [|done]. done.
Qed.

(** The registry and the accumulator go together: both unset, or the
    registry holding "central_system" once and the accumulator initialized. *)
Definition registry_state (s : Storage) (fed : bool) : Prop :=
  if fed
  then systemList s = [central_system] ∧ FHE_isInitialized (central_sum s) = true
  else systemList s = [] ∧ central_sum s = 0.

Section Initialized.
Hypothesis add_initialized :
  ∀ a b h, FHE_add fhe a b = Some h → FHE_isInitialized h = true.

Lemma transact_registry_state (s : Storage) (c : Ctx * Call) (fed : bool) :
  registry_state s fed →
  registry_state (transact fhe s c) (fed || accumulates fhe s c).
Proof.
  intros Hs. destruct (accumulates fhe s c) eqn:Hacc.
  - rewrite orb_true_r.
    destruct (accumulates_transact s c Hacc) as (d & r0 & r2 & E).
    unfold registry_state. rewrite (revealed_systemList _ _ _ _ _ E).
    split.
    + destruct fed; destruct Hs as [Hl Hc].
      * by rewrite Hc.
      * by rewrite Hc, Hl.
    + destruct (revealed_central_sum _ _ _ _ _ E) as (a & b & Hadd).
      by eapply add_initialized.
  - rewrite orb_false_r. unfold registry_state, central_sum in *.
    by rewrite transact_systemList, transact_encryptedLoadSum by auto.
Qed.

Lemma run_registry_state (s : Storage) (l : list (Ctx * Call)) (fed : bool) :
  registry_state s fed →
  registry_state (run fhe s l) (fed || ever fhe (accumulates fhe) s l).
Proof.
  revert s fed. induction l as [|c l IH]; intros s fed Hs; simpl.
  - by rewrite orb_false_r.
  - rewrite orb_assoc. by apply IH, transact_registry_state.
Qed.

(** X11. Provided [FHE.add] returns initialized handles where it answers:
    after any history
    on the freshly deployed contract the registry is empty and the
    accumulator of "central_system" unset as long as no reveal callback has
    succeeded, and from the first one on the registry holds
    "central_system" exactly once and the accumulator is initialized. *)
Theorem registry_holds_key_once (l : list (Ctx * Call)) :
  let s := run fhe deployed l in
  if ever fhe (accumulates fhe) deployed l
  then systemList s = [central_system] ∧ FHE_isInitialized (central_sum s) = true
  else systemList s = [] ∧ central_sum s = 0.
Proof.
  apply (run_registry_state deployed l false). split; [done|]. apply mload_empty.
Qed.

End Initialized.

End Registry.

Lemma registry_holds_key_once_witness :
  systemList (run Reference.fhe deployed three_readings) = [central_system] ∧
  FHE_isInitialized (central_sum (run Reference.fhe deployed three_readings)) = true.
Proof.
  exact (registry_holds_key_once Reference.fhe Reference_add_initialized three_readings).
Defined.

(** ** The accumulator over whole histories *)

Section AccumulatedHistory.
Context (fhe : FHEVM) (decrypt : euint32 → uint32).

Hypothesis decrypt_asEuint32 :
  ∀ v h, 0 ≤ v ≤ MAX_UINT32 → FHE_asEuint32 fhe v = Some h → decrypt h = v.
Hypothesis decrypt_add :
  ∀ a b h, FHE_add fhe a b = Some h →
           decrypt h = (decrypt a + decrypt b) mod 2 ^ 32.
Hypothesis add_initialized :
  ∀ a b h, FHE_add fhe a b = Some h → FHE_isInitialized h = true.
Hypothesis decode_range :
  ∀ ct l, abi_decode_uint32_array fhe ct = Some l →
          Forall (λ v, 0 ≤ v ≤ MAX_UINT32) l.

(** Along a history the accumulator either has not moved, or is initialized
    and decrypts to what it held plus the loads fed to it. *)
Lemma run_clear_sum (s : Storage) (l : list (Ctx * Call)) :
  if ever fhe (accumulates fhe) s l
  then FHE_isInitialized (central_sum (run fhe s l)) = true ∧
       decrypt (central_sum (run fhe s l)) =
         (clear_sum decrypt s + accumulated fhe s l) mod 2 ^ 32
  else central_sum (run fhe s l) = central_sum s ∧ accumulated fhe s l = 0.
Proof.
  revert s. induction l as [|c l IH]; intros s; simpl; [done|].
  specialize (IH (transact fhe s c)).
  destruct (accumulates fhe s c) eqn:Hacc; simpl.
  - destruct (accumulate_step fhe decrypt decrypt_asEuint32 decrypt_add
                add_initialized decode_range s c Hacc) as [Hi Hd].
    destruct (ever fhe (accumulates fhe) (transact fhe s c) l).
    + destruct IH as [Hi' Hd']. split; [done|].
      rewrite Hd'. unfold clear_sum at 1. rewrite Hi, Hd.
      rewrite Zplus_mod_idemp_l. f_equal. lia.
    + destruct IH as [Hsame Hzero]. rewrite Hsame, Hzero, Z.add_0_r. done.
  - assert (central_sum (transact fhe s c) = central_sum s) as Hsame.
    { unfold central_sum. apply transact_encryptedLoadSum. by right. }
    destruct (ever fhe (accumulates fhe) (transact fhe s c) l).
    + destruct IH as [Hi' Hd']. split; [done|].
      rewrite Hd'. unfold clear_sum. by rewrite Hsame.
    + destruct IH as [Hsame' Hzero]. by rewrite Hsame', Hsame, Hzero.
Qed.

(** X12. The accumulator is the sum of everything revealed. Under a
    decryption function for which [FHE.asEuint32] and [FHE.add] are, where
    they answer, the encryption and the addition modulo 2^32: after any
    history on the
    freshly deployed contract in which a reveal callback succeeded --
    whatever else was called in between -- the handle of "central_system"
    decrypts to the sum, modulo 2^32, of the loads of all the callbacks that
    succeeded. *)
Theorem accumulator_totals_history (l : list (Ctx * Call)) :
  ever fhe (accumulates fhe) deployed l = true →
  decrypt (central_sum (run fhe deployed l)) = accumulated fhe deployed l mod 2 ^ 32.
Proof.
  intros Hev. pose proof (run_clear_sum deployed l) as H. rewrite Hev in H.
  destruct H as [_ ->]. f_equal.
Qed.

End AccumulatedHistory.

Lemma accumulator_totals_history_witness :
  Reference.decrypt (central_sum (run Reference.fhe deployed three_readings))
    = accumulated Reference.fhe deployed three_readings mod 2 ^ 32.
Proof.
  apply (accumulator_totals_history Reference.fhe Reference.decrypt
           Reference_decrypt_asEuint32 Reference_decrypt_add
           Reference_add_initialized Reference_decode_range three_readings).
  vm_compute. reflexivity.
Defined.

(** ** Events and requests behind a reveal *)

Section RevealTrail.
Context (fhe : FHEVM).

Lemma decrypted_events_app (l1 l2 : list Event) (i : uint256) :
  decrypted_events (l1 ++ l2) i =
    (decrypted_events l1 i + decrypted_events l2 i)%nat.
Proof.
  induction l1 as [|e l1 IH]; simpl; [done|]. destruct e; simpl; rewrite ?IH; lia.
Qed.

Lemma emitted_decrypted_events (s : Storage) (c : Ctx * Call) (i : uint256) :
  decrypted_events (emitted fhe s c) i = if reveals fhe s c i then 1%nat else 0%nat.
Proof.
  destruct c as [ctx [u t l|o d|r ct p|d|k|o k|r ct p]];
    unfold reveals, succeeds, emitted; simpl.
  - rewrite submit_effect. simpl. by destruct (dataCount s + 1 <=? MAX_UINT256).
  - rewrite request_effect. simpl.
    destruct (isRevealed _); [done|]. by destruct (o _ _).
  - rewrite decrypt_effect. cbv zeta.
    destruct (_ =? 0); [done|]. destruct (isRevealed _); [done|].
    destruct (FHE_checkSignatures _ _ _ _); [|done].
    destruct (abi_decode_uint32_array _ _) as [results|]; [|done].
    destruct (results !! 0%nat) as [r0|]; [|done].
    destruct (results !! 2%nat) as [r2|]; [|done].
    destruct (revealed fhe _ r0 r2 s); [|done].
    simpl. destruct (_ =? i); done.
  - done.
  - done.
  - rewrite requestSum_effect. simpl.
    destruct (FHE_isInitialized _); [|done]. by destruct (o _ _).
  - rewrite decryptSum_effect.
    destruct (getSystemFromHash_loop _ _ _); [|done].
    destruct (FHE_checkSignatures _ _ _ _); [|done].
    by destruct (abi_decode_uint32 _ _).
Qed.

(** X13. The log tells the reveals: in the log of any history, run from any
    storage, the number of [EnergyDataDecrypted(i)] events is the number of
    successful reveal callbacks whose request id resolved to [i]; no other
    call and no failed callback emits one. *)
Theorem log_counts_reveals (s : Storage) (l : list (Ctx * Call)) (i : uint256) :
  decrypted_events (logs fhe s l) i = reveal_count fhe s l i.
Proof.
  revert s. induction l as [|c l IH]; intros s; simpl; [done|].
  by rewrite decrypted_events_app, emitted_decrypted_events, IH.
Qed.

(** A mapping entry that moved was written by a request for its new value. *)
Lemma transact_mapping_requested (s : Storage) (c : Ctx * Call) (r : uint256) :
  mload (requestToDataId (transact fhe s c)) r ≠ mload (requestToDataId s) r →
  requests_target fhe s c (mload (requestToDataId (transact fhe s c)) r) = true.
Proof.
  destruct c as [ctx [u t l|o d|q ct p|d|k|o k|q ct p]];
    unfold requests_target, succeeds, transact; simpl.
  - rewrite submit_effect. simpl. by destruct (dataCount s + 1 <=? MAX_UINT256).
  - rewrite request_effect. simpl.
    destruct (isRevealed _); [done|]. destruct (o _ _) as [reqId|]; [|done].
    simpl. rewrite mload_mstore. case_decide; [|done]. intros _. apply Z.eqb_refl.
  - intros Hne. exfalso. apply Hne.
    destruct (decrypt_cases fhe ctx q ct p s)
      as [(_ & Hs & _)|(_ & _ & r0 & r2 & Hs)];
      unfold transact in Hs; simpl in Hs.
    + by rewrite Hs.
    + by rewrite (revealed_requestToDataId _ _ _ _ _ _ Hs).
  - done.
  - done.
  - rewrite requestSum_effect. simpl.
    destruct (FHE_isInitialized _); [|done]. destruct (o _ _) as [reqId|]; [|done].
    simpl. rewrite mload_mstore. case_decide; [|done]. intros _.
    unfold bytes32ToUint. apply Z.eqb_refl.
  - rewrite decryptSum_effect.
    destruct (getSystemFromHash_loop _ _ _); [|done].
    destruct (FHE_checkSignatures _ _ _ _); [|done].
    by destruct (abi_decode_uint32 _ _).
Qed.

Lemma run_mapping_requested (s : Storage) (l : list (Ctx * Call)) (r j : uint256) :
  mload (requestToDataId (run fhe s l)) r = j →
  j ≠ mload (requestToDataId s) r →
  ever fhe (λ s' c, requests_target fhe s' c j) s l = true.
Proof.
  revert s. induction l as [|c l IH]; intros s; simpl; [congruence|].
  intros Hj Hne. apply orb_true_iff.
  destruct (decide (j = mload (requestToDataId (transact fhe s c)) r)) as [E|E].
  - left. rewrite E. apply transact_mapping_requested. congruence.
  - right. by apply IH.
Qed.

(** X14. No reveal without a request. If, after a history on the freshly
    deployed contract, a reveal callback succeeds for target [i], then some
    successful request of that history recorded a request id for [i]: a
    reveal request for submission [i], or a sum request for a key whose hash
    is [i]. *)
Theorem reveal_was_requested (l : list (Ctx * Call)) (c : Ctx * Call) (i : uint256) :
  reveals fhe (run fhe deployed l) c i = true →
  ever fhe (λ s c, requests_target fhe s c i) deployed l = true.
Proof.
  destruct c as [ctx [u t l'|o d|r ct p|d|k|o k|r ct p]];
    unfold reveals; simpl; try done.
  intros [Hok Hi%Z.eqb_eq]%andb_true_iff.
  destruct (decrypt_success _ _ _ _ _ _ Hok) as (r0 & r2 & Hne & _).
  simpl in Hne. apply (run_mapping_requested deployed l r i Hi).
  simpl. rewrite mload_empty, <- Hi. exact Hne.
Qed.

End RevealTrail.

Lemma reveal_was_requested_witness :
  ever Reference.fhe (λ s c, requests_target Reference.fhe s c 1) deployed
    [ (alice, SubmitEncryptedEnergyData 11 12 13);
      (alice, RequestEnergyDataDecryption (Reference.grants 0) 1) ] = true.
Proof.
  apply (reveal_was_requested Reference.fhe
           [ (alice, SubmitEncryptedEnergyData 11 12 13);
             (alice, RequestEnergyDataDecryption (Reference.grants 0) 1) ]
           (Reference.reveal 0 40 50 60) 1).
  vm_compute. reflexivity.
Defined.

(** ** From submission to reveal *)

Section RoundTrips.
Context (fhe : FHEVM).

Lemma revealed_accepts (dataId : uint256) (r0 r2 : uint32) (s : Storage) :
  accepts fhe s r2 = true → is_Some (revealed fhe dataId r0 r2 s).
Proof.
  unfold accepts, revealed, central_sum. simpl.
  destruct (FHE_asEuint32 fhe r2) as [load|]; [|done].
  destruct (FHE_isInitialized (mload (encryptedLoadSum s) central_system)).
  - intros [total Ht]%bool_decide_eq_true.
    change (encryptedLoadSum (set_decryptedData dataId _ s)) with (encryptedLoadSum s).
    rewrite Ht. by eexists.
  - destruct (FHE_asEuint32 fhe 0) as [zero|]; [|done]. simpl.
    rewrite mload_mstore_eq.
    intros [total ->]%bool_decide_eq_true. by eexists.
Qed.

(** X15. Submit, request, answer. From any storage whose counter is a
    [uint256] below its maximum: a submission gets the id above the
    counter; the reveal request for it hands the oracle the three submitted
    handles, in the order usage, timestamp, load; and the callback for the
    request id the oracle returned, with a proof that verifies, reveals the
    record with the first and the third clear text -- the second, the
    timestamp, is dropped -- provided the coprocessor accepts to add the
    load to the accumulator as it stands. The log then holds the contract's
    three events, with the library's [DecryptionFulfilled] before the last. *)
Theorem submit_request_reveal (s : Storage) (ctx1 ctx2 ctx3 ctx4 : Ctx)
    (oracle : Oracle) (u t l : euint32) (requestId : uint256)
    (cleartexts proof : bytes) (results : list uint32) (a b : uint32) :
  0 ≤ dataCount s < MAX_UINT256 →
  oracle [u; t; l] decryptEnergyData_selector = Some requestId →
  FHE_checkSignatures fhe requestId cleartexts proof = true →
  abi_decode_uint32_array fhe cleartexts = Some results →
  results !! 0%nat = Some a →
  results !! 2%nat = Some b →
  accepts fhe s b = true →
  let n := dataCount s + 1 in
  let h := [ (ctx1, SubmitEncryptedEnergyData u t l);
             (ctx2, RequestEnergyDataDecryption oracle n);
             (ctx3, DecryptEnergyData requestId cleartexts proof) ] in
  getDecryptedEnergyData ctx4 n (run fhe s h) = inr ((a, b, true), run fhe s h, []) ∧
  logs fhe s h =
    [ EnergyDataSubmitted n (block_timestamp ctx1);
      DecryptionRequested n;
      DecryptionFulfilled requestId;
      EnergyDataDecrypted n ].
Proof.
  intros Hc Ho Hproof Hdec Ha Hb Hacc n h.
  set (e := {| id := n; encryptedTenantUsage := u; encryptedTimestamp := t;
               encryptedSystemLoad := l; timestamp := block_timestamp ctx1 |}).
  set (s1 := set_decryptedData n zero (set_encryptedData n e (set_dataCount n s))).
  set (s2 := set_requestToDataId requestId n s1).
  assert (submitEncryptedEnergyData ctx1 u t l s =
            inr (tt, s1, [EnergyDataSubmitted n (block_timestamp ctx1)])) as E1.
  { rewrite submit_effect. cbv zeta. fold n.
    assert ((n <=? MAX_UINT256) = true) as -> by (apply Z.leb_le; lia). done. }
  assert (requestEnergyDataDecryption ctx2 oracle n s1 =
            inr (tt, s2, [DecryptionRequested n])) as E2.
  { assert (mload (encryptedData s1) n = e) as He by apply mload_mstore_eq.
    assert (mload (decryptedData s1) n = zero) as Hd by apply mload_mstore_eq.
    rewrite request_effect. cbv zeta. rewrite He, Hd. unfold e. simpl. by rewrite Ho. }
  destruct (revealed_accepts n a b s2) as [s3 Hs3]; [exact Hacc|].
  assert (decryptEnergyData fhe ctx3 requestId cleartexts proof s2 =
            inr (tt, s3, [DecryptionFulfilled requestId; EnergyDataDecrypted n])) as E3.
  { assert (mload (requestToDataId s2) requestId = n) as Hm by apply mload_mstore_eq.
    assert (mload (decryptedData s2) n = zero) as Hd by apply mload_mstore_eq.
    rewrite decrypt_effect. cbv zeta. rewrite Hm, Hd.
    assert ((n =? 0) = false) as -> by (apply Z.eqb_neq; lia).
    simpl. by rewrite Hproof, Hdec, Ha, Hb, Hs3. }
  assert (run fhe s h = s3) as ->.
  { unfold h, run, transact. simpl. rewrite E1. simpl. rewrite E2. simpl.
    by rewrite E3. }
  split.
  - rewrite getData_effect. cbv zeta.
    by rewrite (revealed_decryptedData _ _ _ _ _ _ Hs3), mload_mstore_eq.
  - unfold h, logs, emitted, transact. simpl. rewrite E1. simpl. rewrite E2. simpl.
    by rewrite E3.
Qed.

(** X16. A request that is pending stays good. Take an existing submission
    that is not revealed and a request id mapped to it. After any history in
    which no callback has revealed that submission and no request has been
    answered with that request id again, the contract's own guards still
    let the callback through: it succeeds as soon as its proof verifies, its
    clear texts decode to three values or more, and the coprocessor accepts
    to add the load to the accumulator as it then stands. New submissions,
    further requests, callbacks for other submissions and failed calls do
    not invalidate the request. *)
Theorem pending_request_stays_good (s : Storage) (l : list (Ctx * Call))
    (i requestId : uint256) (ctx : Ctx) (cleartexts proof : bytes)
    (results : list uint32) (r2 : uint32) :
  1 ≤ i ≤ dataCount s →
  mload (requestToDataId s) requestId = i →
  isRevealed (mload (decryptedData s) i) = false →
  reveal_count fhe s l i = 0%nat →
  ever fhe (λ s c, records_reveal_request fhe s c requestId) s l = false →
  ever fhe (λ s c, records_sum_request fhe s c requestId) s l = false →
  FHE_checkSignatures fhe requestId cleartexts proof = true →
  abi_decode_uint32_array fhe cleartexts = Some results →
  results !! 2%nat = Some r2 →
  accepts fhe (run fhe s l) r2 = true →
  reveals fhe (run fhe s l) (ctx, DecryptEnergyData requestId cleartexts proof) i
    = true.
Proof.
  intros Hi Hmap Hsealed Hcount Hr1 Hr2 Hproof Hdec Hload Hacc.
  assert (mload (decryptedData (run fhe s l)) i = mload (decryptedData s) i) as Hrec.
  { clear -Hi Hcount. revert s Hi Hcount.
    induction l as [|c l IH]; intros s Hi; simpl; [done|].
    destruct (reveals fhe s c i) eqn:Hrev; [done|]. simpl. intros Hcount.
    pose proof (transact_dataCount fhe s c).
    rewrite IH; [|lia|done]. by apply transact_decryptedData. }
  pose proof (run_requestToDataId fhe s l requestId Hr1 Hr2) as Hmap'.
  rewrite Hmap in Hmap'.
  unfold reveals, succeeds. simpl. rewrite decrypt_effect. cbv zeta.
  rewrite Hmap', Hrec, Hsealed, Hproof, Hdec, Hload.
  assert ((i =? 0) = false) as -> by (apply Z.eqb_neq; lia).
  destruct (lookup_lt_is_Some_2 results 0) as [r0 ->].
  { apply lookup_lt_Some in Hload. lia. }
  destruct (revealed_accepts i r0 r2 (run fhe s l) Hacc) as [s' ->].
  simpl. apply Z.eqb_refl.
Qed.

(** X17. Requesting and answering the sum. Once "central_system" is
    registered and its accumulator initialized, a sum request for it that
    the oracle answers succeeds: it hands the oracle the accumulator handle
    alone and records the request id under the hash of the key, touching
    nothing else and emitting no event. The callback for that request id
    then resolves the hash through the registry and is accepted as soon as
    its proof verifies and its clear text decodes; it leaves the storage as
    it is and logs the library's [DecryptionFulfilled] alone. *)
Theorem sum_request_then_callback (s : Storage) (ctx1 ctx2 : Ctx) (oracle : Oracle)
    (requestId : uint256) (cleartexts proof : bytes) (v : uint32) :
  central_system ∈ systemList s →
  FHE_isInitialized (central_sum s) = true →
  oracle [central_sum s] decryptLoadSum_selector = Some requestId →
  FHE_checkSignatures fhe requestId cleartexts proof = true →
  abi_decode_uint32 fhe cleartexts = Some v →
  let s1 := set_requestToDataId requestId (keccak256 fhe central_system) s in
  requestLoadSumDecryption fhe ctx1 oracle central_system s = inr (tt, s1, []) ∧
  decryptLoadSum fhe ctx2 requestId cleartexts proof s1
    = inr (tt, s1, [DecryptionFulfilled requestId]).
Proof.
  intros Hreg Hinit Ho Hproof Hdec s1. split.
  - rewrite requestSum_effect. cbv zeta. fold (central_sum s). by rewrite Hinit, Ho.
  - assert (mload (requestToDataId s1) requestId = keccak256 fhe central_system)
      as Hm by apply mload_mstore_eq.
    rewrite decryptSum_effect, Hm.
    change (systemList s1) with (systemList s).
    pose proof (getSystemFromHash_loop_spec fhe (systemList s)
                  (keccak256 fhe central_system)) as Hloop.
    destruct (getSystemFromHash_loop _ _ _) as [k|].
    + by rewrite Hproof, Hdec.
    + exfalso. by apply (Hloop central_system).
Qed.

End RoundTrips.

Lemma submit_request_reveal_witness :
  getDecryptedEnergyData bob 2
      (run Reference.fhe one_submission
         [ (bob, SubmitEncryptedEnergyData 21 22 23);
           (bob, RequestEnergyDataDecryption (Reference.grants 4) 2);
           Reference.reveal 4 40 50 60 ])
    = inr ((40, 60, true),
           run Reference.fhe one_submission
             [ (bob, SubmitEncryptedEnergyData 21 22 23);
               (bob, RequestEnergyDataDecryption (Reference.grants 4) 2);
               Reference.reveal 4 40 50 60 ], []).
Proof.
  refine (proj1 (submit_request_reveal Reference.fhe one_submission bob bob
                   (Reference.tenant 0) bob (Reference.grants 4) 21 22 23 4
                   answer_40_50_60 (Reference.sign 4 answer_40_50_60)
                   [40; 50; 60] 40 60 _ _ _ _ _ _ _)).
  - vm_compute. split; [discriminate|reflexivity].
  - reflexivity.
  - vm_compute. reflexivity.
  - vm_compute. reflexivity.
  - reflexivity.
  - reflexivity.
  - vm_compute. reflexivity.
Defined.

Lemma pending_request_stays_good_witness :
  reveals Reference.fhe (run Reference.fhe two_requested pending_history)
    reveal_A 1 = true.
Proof.
  apply (pending_request_stays_good Reference.fhe two_requested pending_history
           1 0 (Reference.tenant 0)
           (Reference.encode_uint32_array [1; 1700000000; 10])
           (Reference.sign 0 (Reference.encode_uint32_array [1; 1700000000; 10]))
           [1; 1700000000; 10] 10).
  - vm_compute. split; discriminate.
  - vm_compute. reflexivity.
  - vm_compute. reflexivity.
  - vm_compute. reflexivity.
  - vm_compute. reflexivity.
  - vm_compute. reflexivity.
  - vm_compute. reflexivity.
  - vm_compute. reflexivity.
  - reflexivity.
  - vm_compute. reflexivity.
Defined.

Lemma sum_request_then_callback_witness :
  let s := run Reference.fhe one_requested [Reference.reveal 0 40 50 60] in
  let s1 := set_requestToDataId 1 (Reference.hash central_system) s in
  requestLoadSumDecryption Reference.fhe bob (Reference.grants 1) central_system s
    = inr (tt, s1, []) ∧
  decryptLoadSum Reference.fhe bob 1 (Reference.encode_uint32 60)
      (Reference.sign 1 (Reference.encode_uint32 60)) s1
    = inr (tt, s1, [DecryptionFulfilled 1]).
Proof.
  intros s s1.
  apply (sum_request_then_callback Reference.fhe s bob bob (Reference.grants 1) 1
           (Reference.encode_uint32 60)
           (Reference.sign 1 (Reference.encode_uint32 60)) 60).
  - apply list_elem_of_In. vm_compute. left. reflexivity.
  - vm_compute. reflexivity.
  - reflexivity.
  - vm_compute. reflexivity.
  - vm_compute. reflexivity.
Defined.
